(** * Personal finance tracker: session manager, transaction store and
      analytics aggregation

    A shallow embedding of [src/contexts/AuthContext.tsx] (credential store
    and session manager) and of the transaction context (transaction store
    and the three aggregators), followed by the properties of the
    specification that they decide.

    React state, the module-level account registry and the two
    [localStorage] entries are threaded explicitly through a [State] record;
    every operation is a function from the state in which it is called to the
    state after the re-render it triggers. *)

From Stdlib Require Import ZArith List String Ascii Bool Lia Permutation
  Sorted DecimalString DecimalPos DecimalZ Floats.
Import ListNotations.

Local Open Scope string_scope.
Local Open Scope list_scope.
Local Open Scope Z_scope.

(** ** The JavaScript runtime the code relies on *)

(** [number]: the code only ever adds amounts, starting from the literal
    [0], and writes integer literals.  The faithful instance is IEEE-754
    binary64; the integer instance is exact arithmetic, which binary64
    addition agrees with as long as the amounts are integers and every
    partial sum stays below 2^53. *)
Class Number (num : Type) := {
  num_of_Z : Z -> num;
  num_add : num -> num -> num
}.

Definition num_zero {num : Type} {N : Number num} : num := num_of_Z 0.

Definition float_of_Z (z : Z) : float :=
  if z <? 0 then PrimFloat.opp (PrimFloat.of_uint63 (Uint63.of_Z (- z)))
  else PrimFloat.of_uint63 (Uint63.of_Z z).

#[export] Instance float_Number : Number float :=
  {| num_of_Z := float_of_Z; num_add := PrimFloat.add |}.

#[export] Instance Z_Number : Number Z :=
  {| num_of_Z := fun z => z; num_add := Z.add |}.

(** [Number.prototype.toString] and [String(n)] at an integer. *)
Definition Z_toString (n : Z) : string :=
  NilZero.string_of_int (Z.to_int n).

(** Zero-padding to [width] digits of a non-negative integer
    ([String(n).padStart(width, '0')]). *)
Fixpoint zeros (k : nat) : string :=
  match k with
  | O => ""
  | S k' => String "0" (zeros k')
  end.

Definition padStart0 (width : nat) (n : Z) : string :=
  let s := Z_toString n in
  (zeros (width - String.length s) ++ s)%string.

(** *** Arrays *)

Section Arrays.
Context {A : Type}.

(** [Array.prototype.sort(compareFn)].  The comparator returns a number,
    [None] standing for [NaN], which the sort treats as [+0]; an element moves
    behind another one only when the comparator says so strictly.  ECMAScript
    requires the sort to be stable, and for a consistent comparator the stable
    outcome is unique, so it is given here by insertion; for an inconsistent
    comparator (one that meets [NaN]) engines may order differently. *)
Definition comes_after (compareFn : A -> A -> option Z) (a b : A) : bool :=
  match compareFn a b with
  | Some v => 0 <? v
  | None => false
  end.

Fixpoint sort_insert (compareFn : A -> A -> option Z) (x : A) (l : list A)
  : list A :=
  match l with
  | [] => [x]
  | y :: l' =>
      if comes_after compareFn x y
      then y :: sort_insert compareFn x l'
      else x :: y :: l'
  end.

Fixpoint Array_sort (compareFn : A -> A -> option Z) (l : list A) : list A :=
  match l with
  | [] => []
  | x :: l' => sort_insert compareFn x (Array_sort compareFn l')
  end.

(** [Array.prototype.slice(start, end)] at integer arguments: a negative
    index counts from the end, and both are clamped to the array. *)
Definition relative_index (len i : Z) : Z :=
  if i <? 0 then Z.max (len + i) 0 else Z.min i len.

Definition Array_slice (l : list A) (start end_ : Z) : list A :=
  let len := Z.of_nat (List.length l) in
  let k := relative_index len start in
  let final := relative_index len end_ in
  firstn (Z.to_nat (final - k)) (skipn (Z.to_nat k) l).

(** [slice(start)]: the end defaults to the length. *)
Definition Array_slice_from (l : list A) (start : Z) : list A :=
  Array_slice l start (Z.of_nat (List.length l)).

End Arrays.

(** *** Strings *)

Definition is_digit (c : ascii) : bool :=
  let n := nat_of_ascii c in (48 <=? n)%nat && (n <=? 57)%nat.

Fixpoint all_digits (s : string) : bool :=
  match s with
  | EmptyString => true
  | String c s' => is_digit c && all_digits s'
  end.

Fixpoint digits_value (acc : Z) (s : string) : Z :=
  match s with
  | EmptyString => acc
  | String c s' => digits_value (10 * acc + (Z.of_nat (nat_of_ascii c) - 48)) s'
  end.

(** [String.prototype.split(sep)] for a one-character separator: the
    segments between the separators, never an empty array. *)
Fixpoint String_split (sep : ascii) (s : string) : list string :=
  match s with
  | EmptyString => [""]
  | String c s' =>
      if Ascii.eqb c sep then "" :: String_split sep s'
      else match String_split sep s' with
           | [] => [String c ""]
           | seg :: segs => String c seg :: segs
           end
  end.

(** *** Objects used as dictionaries

    A [Record<string, V>] built by assignment keeps its string keys in the
    order of their creation; assigning to an existing key replaces the value
    in place.  [Object.entries] lists the keys that are array indices first,
    in ascending numeric order, and then all the others in creation order. *)

Section Objects.
Context {V : Type}.

Definition Obj := list (string * V).

Fixpoint Obj_get (o : Obj) (k : string) : option V :=
  match o with
  | [] => None
  | (k', v) :: o' => if String.eqb k' k then Some v else Obj_get o' k
  end.

Fixpoint Obj_set (o : Obj) (k : string) (v : V) : Obj :=
  match o with
  | [] => [(k, v)]
  | (k', v') :: o' =>
      if String.eqb k' k then (k, v) :: o' else (k', v') :: Obj_set o' k v
  end.

(** A canonical numeric string below 2^32 - 1 is an array index. *)
Definition array_index (k : string) : option Z :=
  if all_digits k && negb (String.eqb k "")
  then let n := digits_value 0 k in
       if String.eqb (Z_toString n) k && (n <? 4294967295) then Some n
       else None
  else None.

Definition is_array_index (k : string) : bool :=
  match array_index k with Some _ => true | None => false end.

Definition index_compare (a b : string * V) : option Z :=
  Some (digits_value 0 (fst a) - digits_value 0 (fst b)).

Definition Object_entries (o : Obj) : list (string * V) :=
  Array_sort index_compare (filter (fun kv => is_array_index (fst kv)) o)
  ++ filter (fun kv => negb (is_array_index (fst kv))) o.

End Objects.

Arguments Obj V : clear implicits.

(** *** Dates

    A [Date] object is its time value, milliseconds since the epoch, or
    [None] for an invalid date (time value [NaN]).  How [new Date(string)]
    reads a string outside the ISO format is left to the engine, and the
    local time zone belongs to the machine, so both are parameters of the
    model; the zone is a fixed offset from UTC, in minutes. *)
Class Host := {
  Date_parse : string -> option Z;
  utcOffset : Z
}.

Definition msPerDay : Z := 86400000.

(** The proleptic Gregorian date (year, month 1..12, day 1..31) of a day
    counted from 1970-01-01. *)
Definition civil_from_days (days : Z) : Z * Z * Z :=
  let z := days + 719468 in
  let era := z / 146097 in
  let doe := z - era * 146097 in
  let yoe := (doe - doe / 1460 + doe / 36524 - doe / 146096) / 365 in
  let doy := doe - (365 * yoe + yoe / 4 - yoe / 100) in
  let mp := (5 * doy + 2) / 153 in
  let d := doy - (153 * mp + 2) / 5 + 1 in
  let m := if mp <? 10 then mp + 3 else mp - 9 in
  let y := yoe + era * 400 + (if m <=? 2 then 1 else 0) in
  (y, m, d).

Definition days_from_civil (y m d : Z) : Z :=
  let y' := if m <=? 2 then y - 1 else y in
  let era := y' / 400 in
  let yoe := y' - era * 400 in
  let doy := (153 * (if 2 <? m then m - 3 else m + 9) + 2) / 5 + d - 1 in
  let doe := yoe * 365 + yoe / 4 - yoe / 100 + doy in
  era * 146097 + doe - 719468.

Definition weekdayNames : list string :=
  ["Sun"; "Mon"; "Tue"; "Wed"; "Thu"; "Fri"; "Sat"].

Definition monthNames : list string :=
  ["Jan"; "Feb"; "Mar"; "Apr"; "May"; "Jun";
   "Jul"; "Aug"; "Sep"; "Oct"; "Nov"; "Dec"].

(** [toISOString()], in UTC. *)
Definition isoYear (y : Z) : string :=
  if (0 <=? y) && (y <=? 9999) then padStart0 4 y
  else String.append (if y <? 0 then "-" else "+") (padStart0 6 (Z.abs y)).

Definition toISOString (t : Z) : string :=
  let '(y, m, d) := civil_from_days (t / msPerDay) in
  let ms := t mod msPerDay in
  (isoYear y ++ "-" ++ padStart0 2 m ++ "-" ++ padStart0 2 d ++ "T"
   ++ padStart0 2 (ms / 3600000) ++ ":" ++ padStart0 2 (ms / 60000 mod 60)
   ++ ":" ++ padStart0 2 (ms / 1000 mod 60) ++ "."
   ++ padStart0 3 (ms mod 1000) ++ "Z")%string.

Section Dates.
Context {host : Host}.

(** The local calendar day a time value falls on, and its day of the week
    (0 is Sunday; 1970-01-01 was a Thursday). *)
Definition localDay (t : Z) : Z := (t + utcOffset * 60000) / msPerDay.

Definition getDay (t : Z) : Z := (localDay t + 4) mod 7.

(** [date.toLocaleString('en-US', { weekday: 'short' })]. *)
Definition weekdayShort (t : Z) : string :=
  nth (Z.to_nat (getDay t)) weekdayNames "".

(** [date.toLocaleString('en-US', { month: 'short', year: 'numeric' })], as
    rendered for the years of the common era. *)
Definition monthShortYear (date : option Z) : string :=
  match date with
  | None => "Invalid Date"
  | Some t =>
      let '(y, m, _) := civil_from_days (localDay t) in
      (nth (Z.to_nat (m - 1)) monthNames "" ++ " " ++ Z_toString y)%string
  end.

(** [date.setDate(date.getDate() - i)]: the same local time, [i] calendar
    days earlier. *)
Definition daysEarlier (t i : Z) : Z := t - i * msPerDay.

End Dates.

(** An ISO-8601 reader for the two shapes the repository itself produces,
    [YYYY-MM-DDTHH:mm:ssZ] (the sample ledger) and
    [YYYY-MM-DDTHH:mm:ss.sssZ] ([toISOString]); anything else is invalid.
    It instantiates [Date_parse] in the examples. *)
Fixpoint read_digits (n : nat) (acc : Z) (s : string) : option (Z * string) :=
  match n with
  | O => Some (acc, s)
  | S n' =>
      match s with
      | String c s' =>
          if is_digit c
          then read_digits n' (10 * acc + (Z.of_nat (nat_of_ascii c) - 48)) s'
          else None
      | EmptyString => None
      end
  end.

Definition expect (c : ascii) (s : string) : option string :=
  match s with
  | String c' s' => if Ascii.eqb c c' then Some s' else None
  | EmptyString => None
  end.

Definition isLeap (y : Z) : bool :=
  (y mod 4 =? 0) && (negb (y mod 100 =? 0) || (y mod 400 =? 0)).

Definition daysInMonth (y m : Z) : Z :=
  if m =? 2 then (if isLeap y then 29 else 28)
  else if (m =? 4) || (m =? 6) || (m =? 9) || (m =? 11) then 30 else 31.

Definition bind {A B : Type} (x : option A) (f : A -> option B) : option B :=
  match x with Some a => f a | None => None end.

Notation "' p <- x ;; k" := (bind x (fun p => k))
  (at level 61, p pattern, x at next level, right associativity).

Definition iso_fraction (s : string) : option Z :=
  match s with
  | "Z" => Some 0
  | String "." s' =>
      '(ms, s'') <- read_digits 3 0 s' ;;
      if String.eqb s'' "Z" then Some ms else None
  | _ => None
  end.

Definition iso_parse (s : string) : option Z :=
  '(y, s) <- read_digits 4 0 s ;; 's <- expect "-" s ;;
  '(m, s) <- read_digits 2 0 s ;; 's <- expect "-" s ;;
  '(d, s) <- read_digits 2 0 s ;; 's <- expect "T" s ;;
  '(hh, s) <- read_digits 2 0 s ;; 's <- expect ":" s ;;
  '(mm, s) <- read_digits 2 0 s ;; 's <- expect ":" s ;;
  '(ss, s) <- read_digits 2 0 s ;;
  'ms <- iso_fraction s ;;
  if (1 <=? m) && (m <=? 12) && (1 <=? d) && (d <=? daysInMonth y m)
     && (hh <=? 23) && (mm <=? 59) && (ss <=? 59)
  then Some (days_from_civil y m d * msPerDay
             + hh * 3600000 + mm * 60000 + ss * 1000 + ms)
  else None.

(** A machine on UTC reading ISO strings, and one at UTC+05:30. *)
Definition utc_host : Host := {| Date_parse := iso_parse; utcOffset := 0 |}.

Definition ist_host : Host := {| Date_parse := iso_parse; utcOffset := 330 |}.

(** ** Data model *)

(** [interface User]: the session, an account without its password. *)
Module User.
Record t := mk {
  id : string;
  name : string;
  email : string;
  isAdmin : bool
}.
End User.

(** An entry of [MOCK_USERS]. *)
Module Account.
Record t := mk {
  id : string;
  name : string;
  email : string;
  password : string;
  isAdmin : bool
}.
End Account.

Inductive TransactionType := income | expense.

Definition TransactionType_eqb (a b : TransactionType) : bool :=
  match a, b with
  | income, income | expense, expense => true
  | _, _ => false
  end.

(** The type as it appears inside a template literal. *)
Definition typeString (ty : TransactionType) : string :=
  match ty with income => "income" | expense => "expense" end.

(** [interface Transaction]. *)
Module Transaction.
Record t {num : Type} := mk {
  id : string;
  userId : string;
  amount : num;
  type : TransactionType;
  category : string;
  description : string;
  date : string
}.
Arguments t num : clear implicits.
Arguments mk {num}.
End Transaction.

(** The argument of [addTransaction]:
    [Omit<Transaction, 'id' | 'userId' | 'date'> & { date?: string }]. *)
Module NewTransaction.
Record t {num : Type} := mk {
  amount : num;
  type : TransactionType;
  category : string;
  description : string;
  date : option string
}.
Arguments t num : clear implicits.
Arguments mk {num}.
End NewTransaction.

(** The accumulator of the monthly and daily aggregations. *)
Module Totals.
Record t {num : Type} := mk { income : num; expense : num }.
Arguments t num : clear implicits.
Arguments mk {num}.
End Totals.

Module MonthEntry.
Record t {num : Type} := mk { month : string; income : num; expense : num }.
Arguments t num : clear implicits.
Arguments mk {num}.
End MonthEntry.

Module DayEntry.
Record t {num : Type} := mk { day : string; income : num; expense : num }.
Arguments t num : clear implicits.
Arguments mk {num}.
End DayEntry.

(** The accumulator and the entries of the category aggregation. *)
Module CategoryTotal.
Record t {num : Type} := mk { amount : num; type : TransactionType }.
Arguments t num : clear implicits.
Arguments mk {num}.
End CategoryTotal.

Module CategoryEntry.
Record t {num : Type} := mk {
  category : string;
  amount : num;
  type : TransactionType
}.
Arguments t num : clear implicits.
Arguments mk {num}.
End CategoryEntry.

(** A toast: its title and whether its variant is "destructive"; the
    description is presentation only. *)
Module Toast.
Record t := mk { title : string; destructive : bool }.
End Toast.

(** The state both providers live in.  [localStorage] holds JSON text from
    which [JSON.parse] gives back the plain records that were written, so an
    entry is kept as the value it decodes to, [None] when the key is absent. *)
Record State {num : Type} := mkState {
  user : option User.t;
  isLoading : bool;
  MOCK_USERS : list Account.t;
  transactions : list (Transaction.t num);
  localStorage_user : option User.t;
  localStorage_transactions : option (list (Transaction.t num));
  toasts : list Toast.t
}.
Arguments State num : clear implicits.
Arguments mkState {num}.

Section Updates.
Context {num : Type}.
Implicit Type s : State num.

Definition setUser s (u : option User.t) : State num :=
  mkState u (isLoading s) (MOCK_USERS s) (transactions s)
    (localStorage_user s) (localStorage_transactions s) (toasts s).

Definition setIsLoading s (b : bool) : State num :=
  mkState (user s) b (MOCK_USERS s) (transactions s)
    (localStorage_user s) (localStorage_transactions s) (toasts s).

Definition setMockUsers s (l : list Account.t) : State num :=
  mkState (user s) (isLoading s) l (transactions s)
    (localStorage_user s) (localStorage_transactions s) (toasts s).

Definition setTransactions s (l : list (Transaction.t num)) : State num :=
  mkState (user s) (isLoading s) (MOCK_USERS s) l
    (localStorage_user s) (localStorage_transactions s) (toasts s).

(** [localStorage.setItem('user', ...)] and [removeItem('user')]. *)
Definition storeUser s (u : option User.t) : State num :=
  mkState (user s) (isLoading s) (MOCK_USERS s) (transactions s)
    u (localStorage_transactions s) (toasts s).

(** [localStorage.setItem('transactions', ...)]. *)
Definition storeTransactions s (l : list (Transaction.t num)) : State num :=
  mkState (user s) (isLoading s) (MOCK_USERS s) (transactions s)
    (localStorage_user s) (Some l) (toasts s).

Definition toast s (title : string) (destructive : bool) : State num :=
  mkState (user s) (isLoading s) (MOCK_USERS s) (transactions s)
    (localStorage_user s) (localStorage_transactions s)
    (toasts s ++ [Toast.mk title destructive]).

End Updates.

(** ** Credential store and session manager ([AuthContext.tsx]) *)

Definition INITIAL_MOCK_USERS : list Account.t :=
  [ Account.mk "1" "Admin User" "admin@example.com" "admin123" true;
    Account.mk "2" "Test User" "user@example.com" "user123" false ].

(** [const { password, ...userWithoutPassword } = account]. *)
Definition withoutPassword (a : Account.t) : User.t :=
  User.mk (Account.id a) (Account.name a) (Account.email a)
    (Account.isAdmin a).

Section Auth.
Context {num : Type}.
Implicit Type s : State num.

(** The state when the module is loaded and nothing is mounted yet. *)
Definition initialState (stored_user : option User.t)
    (stored_transactions : option (list (Transaction.t num))) : State num :=
  mkState None true INITIAL_MOCK_USERS [] stored_user stored_transactions [].

(** The mount effect of [AuthProvider]: a stored session is adopted as it
    is. *)
Definition restore s : State num :=
  let s :=
    match localStorage_user s with
    | Some storedUser => setUser s (Some storedUser)
    | None => s
    end in
  setIsLoading s false.

(** [login] sets the loading flag at once; the body of its promise runs
    one second later, in one piece, on the registry as it is then. *)
Definition login_resolve s (email password : string) : State num * bool :=
  match find (fun u => String.eqb (Account.email u) email
                       && String.eqb (Account.password u) password)
             (MOCK_USERS s) with
  | Some foundUser =>
      let userWithoutPassword := withoutPassword foundUser in
      let s := setUser s (Some userWithoutPassword) in
      let s := storeUser s (Some userWithoutPassword) in
      let s := toast s "Login successful" false in
      (setIsLoading s false, true)
  | None =>
      let s := toast s "Login failed" true in
      (setIsLoading s false, false)
  end.

Definition login s (email password : string) : State num * bool :=
  login_resolve (setIsLoading s true) email password.

Definition register_resolve s (name email password : string)
  : State num * bool :=
  let userExists :=
    existsb (fun u => String.eqb (Account.email u) email) (MOCK_USERS s) in
  if userExists then
    let s := toast s "Registration failed" true in
    (setIsLoading s false, false)
  else
    let newUser :=
      Account.mk
        (Z_toString (Z.of_nat (List.length (MOCK_USERS s)) + 1))
        name email password false in
    let s := setMockUsers s (MOCK_USERS s ++ [newUser]) in
    let userWithoutPassword := withoutPassword newUser in
    let s := setUser s (Some userWithoutPassword) in
    let s := storeUser s (Some userWithoutPassword) in
    let s := toast s "Registration successful" false in
    (setIsLoading s false, true).

Definition register s (name email password : string) : State num * bool :=
  register_resolve (setIsLoading s true) name email password.

Definition logout s : State num :=
  let s := setUser s None in
  let s := storeUser s None in
  toast s "Logged out" false.

End Auth.

(** ** Transaction store and analytics (the transaction context) *)

Section Store.
Context {num : Type} {N : Number num} {host : Host}.
Implicit Type s : State num.
Implicit Type t : Transaction.t num.

Definition SAMPLE_TRANSACTIONS : list (Transaction.t num) :=
  [ Transaction.mk "1" "1" (num_of_Z 50000) income "Salary"
      "Monthly salary" "2023-04-01T10:00:00Z";
    Transaction.mk "2" "1" (num_of_Z 5000) expense "Food"
      "Grocery shopping" "2023-04-05T15:30:00Z";
    Transaction.mk "3" "2" (num_of_Z 25000) income "Freelance"
      "Website development" "2023-04-10T09:15:00Z";
    Transaction.mk "4" "2" (num_of_Z 2500) expense "Transport"
      "Fuel" "2023-04-12T18:20:00Z";
    Transaction.mk "5" "2" (num_of_Z 1800) expense "Entertainment"
      "Movie and dinner" "2023-04-15T20:00:00Z";
    Transaction.mk "6" "1" (num_of_Z 10000) expense "Rent"
      "Monthly rent" "2023-04-02T11:00:00Z" ].

(** The mount effect of [TransactionProvider]. *)
Definition loadTransactions s : State num :=
  match localStorage_transactions s with
  | Some storedTransactions => setTransactions s storedTransactions
  | None =>
      storeTransactions (setTransactions s SAMPLE_TRANSACTIONS)
        SAMPLE_TRANSACTIONS
  end.

(** [addTransaction(transaction)], called when the clock reads [now].  The
    argument is spread last, so a [date] that it carries is the date of the
    record, whatever it is; the record gets the current time only when the
    argument has no [date]. *)
Definition newTransaction (u : User.t) (now : Z)
    (transaction : NewTransaction.t num) : Transaction.t num :=
  Transaction.mk
    (Z_toString now)
    (User.id u)
    (NewTransaction.amount transaction)
    (NewTransaction.type transaction)
    (NewTransaction.category transaction)
    (NewTransaction.description transaction)
    (match NewTransaction.date transaction with
     | Some d => d
     | None => toISOString now
     end).

Definition addTransaction s (now : Z) (transaction : NewTransaction.t num)
  : State num :=
  match user s with
  | None => toast s "Error" true
  | Some u =>
      let updatedTransactions :=
        transactions s ++ [newTransaction u now transaction] in
      let s := setTransactions s updatedTransactions in
      let s := storeTransactions s updatedTransactions in
      toast s "Transaction added" false
  end.

(** [new Date(t.date).getTime()]. *)
Definition getTime t : option Z := Date_parse (Transaction.date t).

(** [(a, b) => new Date(b.date).getTime() - new Date(a.date).getTime()]. *)
Definition byDateDesc (a b : Transaction.t num) : option Z :=
  match getTime b, getTime a with
  | Some tb, Some ta => Some (tb - ta)
  | _, _ => None
  end.

Definition ownedBy (userId : string) t : bool :=
  String.eqb (Transaction.userId t) userId.

Definition getAllTransactions s : list (Transaction.t num) :=
  Array_sort byDateDesc (transactions s).

Definition getUserTransactions s (userId : string)
  : list (Transaction.t num) :=
  Array_sort byDateDesc (filter (ownedBy userId) (transactions s)).

(** [getRecentTransactions(limit = 5)]; [None] is a call without
    argument. *)
Definition getRecentTransactions s (limit : option Z)
  : list (Transaction.t num) :=
  let limit := match limit with Some n => n | None => 5 end in
  match user s with
  | None => []
  | Some u =>
      Array_slice
        (Array_sort byDateDesc
           (filter (ownedBy (User.id u)) (transactions s)))
        0 limit
  end.

(** [totals.income += amount] or [totals.expense += amount]. *)
Definition credit (totals : Totals.t num) t : Totals.t num :=
  match Transaction.type t with
  | income =>
      Totals.mk (num_add (Totals.income totals) (Transaction.amount t))
        (Totals.expense totals)
  | expense =>
      Totals.mk (Totals.income totals)
        (num_add (Totals.expense totals) (Transaction.amount t))
  end.

Definition noTotals : Totals.t num := Totals.mk num_zero num_zero.

Definition monthName t : string := monthShortYear (getTime t).

(** One turn of the [forEach] of [getMonthlyData]: the bucket is created
    at zero when its label is new, then credited. *)
Definition monthlyStep (monthlyData : Obj (Totals.t num)) t
  : Obj (Totals.t num) :=
  let current :=
    match Obj_get monthlyData (monthName t) with
    | Some totals => totals
    | None => noTotals
    end in
  Obj_set monthlyData (monthName t) (credit current t).

Definition getMonthlyData s : list (MonthEntry.t num) :=
  match user s with
  | None => []
  | Some u =>
      let userTransactions :=
        filter (ownedBy (User.id u)) (transactions s) in
      let monthlyData := fold_left monthlyStep userTransactions [] in
      Array_slice_from
        (map (fun '(month, data) =>
                MonthEntry.mk month (Totals.income data)
                  (Totals.expense data))
             (Object_entries monthlyData))
        (-6)
  end.

(** The loop [for (let i = 6; i >= 0; i--)] of [getDailyData]. *)
Definition seedDays (today : Z) : Obj (Totals.t num) :=
  fold_left
    (fun dailyData i =>
       Obj_set dailyData (weekdayShort (daysEarlier today i)) noTotals)
    [6; 5; 4; 3; 2; 1; 0] [].

(** [Math.floor((today.getTime() - date.getTime()) / (1000*60*60*24))]. *)
Definition daysDiff (today date : Z) : Z := (today - date) / msPerDay.

Definition inLast7Days (today : Z) t : bool :=
  match getTime t with
  | Some date => daysDiff today date <? 7
  | None => false
  end.

Definition dayName t : string :=
  match getTime t with
  | Some date => weekdayShort date
  | None => "Invalid Date"
  end.

(** One turn of the [forEach] of [getDailyData].  [NaN < 7] is false, so an
    invalid date is skipped; reading [.income] of a missing bucket would be
    a [TypeError], here [None]. *)
Definition dailyStep (today : Z) (dailyData : option (Obj (Totals.t num))) t
  : option (Obj (Totals.t num)) :=
  match dailyData with
  | None => None
  | Some o =>
      if inLast7Days today t then
        match Obj_get o (dayName t) with
        | Some totals => Some (Obj_set o (dayName t) (credit totals t))
        | None => None
        end
      else Some o
  end.

(** [getDailyData()], called when the clock reads [today]; [None] when the
    call throws. *)
Definition getDailyData s (today : Z) : option (list (DayEntry.t num)) :=
  match user s with
  | None => Some []
  | Some u =>
      let userTransactions :=
        filter (ownedBy (User.id u)) (transactions s) in
      match fold_left (dailyStep today) userTransactions
              (Some (seedDays today)) with
      | Some dailyData =>
          Some (map (fun '(day, data) =>
                       DayEntry.mk day (Totals.income data)
                         (Totals.expense data))
                    (Object_entries dailyData))
      | None => None
      end
  end.

(** [`${transaction.category}-${transaction.type}`]. *)
Definition categoryKey t : string :=
  (Transaction.category t ++ "-" ++ typeString (Transaction.type t))%string.

Definition categoryStep (categoryData : Obj (CategoryTotal.t num)) t
  : Obj (CategoryTotal.t num) :=
  let current :=
    match Obj_get categoryData (categoryKey t) with
    | Some data => data
    | None => CategoryTotal.mk num_zero (Transaction.type t)
    end in
  Obj_set categoryData (categoryKey t)
    (CategoryTotal.mk
       (num_add (CategoryTotal.amount current) (Transaction.amount t))
       (CategoryTotal.type current)).

(** [const [category] = key.split('-')]. *)
Definition firstSegment (key : string) : string :=
  hd "" (String_split "-" key).

Definition getCategoryData s : list (CategoryEntry.t num) :=
  match user s with
  | None => []
  | Some u =>
      let userTransactions :=
        filter (ownedBy (User.id u)) (transactions s) in
      let categoryData := fold_left categoryStep userTransactions [] in
      map (fun '(key, data) =>
             CategoryEntry.mk (firstSegment key)
               (CategoryTotal.amount data) (CategoryTotal.type data))
          (Object_entries categoryData)
  end.

End Store.


(** ** The admin dashboard (the page that calls [getAllTransactions])

    The counts and sums shown on its cards; [reduce] adds from [0] in the
    order of [all()]. *)

Section AdminDashboard.
Context {num : Type} {N : Number num} {host : Host}.
Implicit Type s : State num.

Definition totalTransactions s : nat := List.length (getAllTransactions s).

Definition totalIncome s : num :=
  fold_left (fun sum t => num_add sum (Transaction.amount t))
    (filter (fun t => TransactionType_eqb (Transaction.type t) income)
       (getAllTransactions s))
    num_zero.

Definition totalExpense s : num :=
  fold_left (fun sum t => num_add sum (Transaction.amount t))
    (filter (fun t => TransactionType_eqb (Transaction.type t) expense)
       (getAllTransactions s))
    num_zero.

End AdminDashboard.

(** ** The application as a whole

    What can happen after the providers are mounted: the synchronous part
    of [login] and [register] (the loading flag), the body of either promise
    when its timer fires, [logout], and [addTransaction].  Reads change
    nothing. *)

Inductive Operation {num : Type} :=
| BeginRequest
| LoginResolve (email password : string)
| RegisterResolve (name email password : string)
| Logout
| AddTransaction (now : Z) (transaction : NewTransaction.t num).
Arguments Operation num : clear implicits.

Section Application.
Context {num : Type} {N : Number num}.
Implicit Type s : State num.

Definition perform s (op : Operation num) : State num :=
  match op with
  | BeginRequest => setIsLoading s true
  | LoginResolve email password => fst (login_resolve s email password)
  | RegisterResolve name email password =>
      fst (register_resolve s name email password)
  | Logout => logout s
  | AddTransaction now transaction => addTransaction s now transaction
  end.

Definition run (ops : list (Operation num)) s : State num :=
  fold_left perform ops s.

(** The state once both mount effects have run, from what [localStorage]
    held. *)
Definition started (stored_user : option User.t)
    (stored_transactions : option (list (Transaction.t num))) : State num :=
  loadTransactions (restore (initialState stored_user stored_transactions)).

(** Reloading the page: the module is loaded afresh and the providers are
    mounted on what [localStorage] holds. *)
Definition reload s : State num :=
  started (localStorage_user s) (localStorage_transactions s).

(** The owners are registered: the session, when there is one, is an
    account of the registry, and so is the owner of every transaction. *)
Definition ownersRegistered s : Prop :=
  (forall u, user s = Some u ->
             exists a, In a (MOCK_USERS s) /\ withoutPassword a = u)
  /\ Forall (fun t => In (Transaction.userId t)
                        (map Account.id (MOCK_USERS s)))
       (transactions s).

(** The clock readings at which [addTransaction] is called. *)
Fixpoint clockReadings (ops : list (Operation num)) : list Z :=
  match ops with
  | [] => []
  | AddTransaction now _ :: ops' => now :: clockReadings ops'
  | _ :: ops' => clockReadings ops'
  end.

End Application.

(** The decimal strings of 1, 2, ..., [n]. *)
Definition idsUpTo (n : nat) : list string :=
  map (fun i => Z_toString (Z.of_nat i)) (seq 1 n).
(** ** Vocabulary of the specification *)

(** [x] occurs in [l] at one position and nowhere else. *)
Definition occursOnce {A : Type} (x : A) (l : list A) : Prop :=
  exists before after,
    l = before ++ x :: after /\ ~ In x before /\ ~ In x after.

(** Descending order of [key]. *)
Definition descending {A : Type} (key : A -> Z) (a b : A) : Prop :=
  key b <= key a.

(** The last [n] elements of a list, all of it when it is shorter. *)
Definition lastN {A : Type} (n : nat) (l : list A) : list A :=
  skipn (List.length l - n) l.

(** The distinct elements of a list in the order of their first
    occurrence; [eqb] decides equality. *)
Definition dedupe {K : Type} (eqb : K -> K -> bool) (l : list K) : list K :=
  fold_left
    (fun seen k => if existsb (eqb k) seen then seen else seen ++ [k]) l [].

Definition firstSeen (labels : list string) : list string :=
  dedupe String.eqb labels.

(** Every order in which the elements of a list can be arranged. *)
Fixpoint insertions {A : Type} (x : A) (l : list A) : list (list A) :=
  match l with
  | [] => [[x]]
  | y :: l' => (x :: l) :: map (cons y) (insertions x l')
  end.

Fixpoint orders {A : Type} (l : list A) : list (list A) :=
  match l with
  | [] => [[]]
  | x :: l' => flat_map (insertions x) (orders l')
  end.

(** The characters of a string before the first occurrence of [sep]; the
    whole string when [sep] does not occur. *)
Fixpoint beforeFirst (sep : ascii) (s : string) : string :=
  match s with
  | EmptyString => ""
  | String c s' => if Ascii.eqb c sep then "" else String c (beforeFirst sep s')
  end.

Fixpoint occursIn (sep : ascii) (s : string) : bool :=
  match s with
  | EmptyString => false
  | String c s' => Ascii.eqb c sep || occursIn sep s'
  end.

(** The dictionary whose keys are [ks], in this order, with values [f]. *)
Definition tabulate {V : Type} (f : string -> V) (ks : list string) : Obj V :=
  map (fun k => (k, f k)) ks.

(** The turn of a loop that groups a list into a dictionary: the element
    updates the entry of its key from the previous value of the entry, if
    there is one. *)
Definition groupStep {T V : Type} (key : T -> string)
    (update : option V -> T -> V) (o : Obj V) (x : T) : Obj V :=
  Obj_set o (key x) (update (Obj_get o (key x)) x).

(** The labels of the seven days that end on the day of the week [w]. *)
Definition daysEnding (w : Z) : list string :=
  map (fun i => nth (Z.to_nat ((w - i) mod 7)) weekdayNames "")
    [6; 5; 4; 3; 2; 1; 0].

Section Vocabulary.
Context {num : Type} {N : Number num} {host : Host}.
Implicit Type t : Transaction.t num.

(** A sum as the code computes it: from [0], adding from left to right. *)
Definition total (amounts : list num) : num :=
  fold_left num_add amounts num_zero.

Definition amounts (l : list (Transaction.t num)) : list num :=
  map Transaction.amount l.

Definition hasType (ty : TransactionType) t : bool :=
  TransactionType_eqb (Transaction.type t) ty.

(** The sums of a list of transactions by type, one addition per
    transaction in the order of the list. *)
Definition totalsOf (l : list (Transaction.t num)) : Totals.t num :=
  Totals.mk (total (amounts (filter (hasType income) l)))
    (total (amounts (filter (hasType expense) l))).

(** The time value of a valid date. *)
Definition timeOf t : Z :=
  match getTime t with Some v => v | None => 0 end.

Definition datedAt (d : Z) t : bool :=
  match getTime t with Some v => v =? d | None => false end.

(** The grouping of the category aggregation: the pair of the category and
    the type; its key is [`${category}-${type}`]. *)
Definition Group : Type := string * TransactionType.

Definition groupOf t : Group := (Transaction.category t, Transaction.type t).

Definition Group_eqb (g h : Group) : bool :=
  String.eqb (fst g) (fst h) && TransactionType_eqb (snd g) (snd h).

Definition inGroup (g : Group) t : bool := Group_eqb (groupOf t) g.

Definition keyOfGroup (g : Group) : string :=
  (fst g ++ "-" ++ typeString (snd g))%string.

(** The groups of a list of transactions, in the order in which they first
    occur. *)
Definition groupsOf (l : list (Transaction.t num)) : list Group :=
  dedupe Group_eqb (map groupOf l).

(** The sum of a group: the amounts of its transactions, added from [0] in
    the order of the list. *)
Definition bucketTotal (l : list (Transaction.t num)) (g : Group) : num :=
  total (amounts (filter (inGroup g) l)).

(** The loop of [getCategoryData] as a grouping: what a turn makes of the
    previous entry of a key, and the entry of key [k] after the loop has run
    over [l]. *)
Definition categoryUpdate (previous : option (CategoryTotal.t num)) t
  : CategoryTotal.t num :=
  let current :=
    match previous with
    | Some data => data
    | None => CategoryTotal.mk num_zero (Transaction.type t)
    end in
  CategoryTotal.mk
    (num_add (CategoryTotal.amount current) (Transaction.amount t))
    (CategoryTotal.type current).

Definition withKey (k : string) t : bool := String.eqb k (categoryKey t).

Definition categoryVal (k : string) (l : list (Transaction.t num))
  : CategoryTotal.t num :=
  CategoryTotal.mk
    (total (amounts (filter (withKey k) l)))
    (match filter (withKey k) l with
     | first :: _ => Transaction.type first
     | [] => expense
     end).

(** The same for [getMonthlyData]. *)
Definition inMonth (label : string) t : bool := String.eqb label (monthName t).

Definition monthlyUpdate (previous : option (Totals.t num)) t
  : Totals.t num :=
  credit (match previous with Some totals => totals | None => noTotals end) t.

Definition monthVal (label : string) (l : list (Transaction.t num))
  : Totals.t num :=
  totalsOf (filter (inMonth label) l).

(** The labels of the seven calendar days that end today, oldest first, and
    the bucket of a label after the loop of [getDailyData] has run over
    [l]. *)
Definition lastSevenDays (today : Z) : list string :=
  map (fun i => weekdayShort (daysEarlier today i)) [6; 5; 4; 3; 2; 1; 0].

Definition onDay (label : string) t : bool := String.eqb label (dayName t).

Definition dayVal (today : Z) (label : string) (l : list (Transaction.t num))
  : Totals.t num :=
  totalsOf (filter (onDay label) (filter (inLast7Days today) l)).

(** The entry of a month or of a day made from its totals. *)
Definition monthEntry (mine : list (Transaction.t num)) (label : string)
  : MonthEntry.t num :=
  MonthEntry.mk label (Totals.income (monthVal label mine))
    (Totals.expense (monthVal label mine)).

Definition dayEntry (today : Z) (mine : list (Transaction.t num))
    (label : string) : DayEntry.t num :=
  DayEntry.mk label (Totals.income (dayVal today label mine))
    (Totals.expense (dayVal today label mine)).

(** The amount of a transaction added to the income or to the expense of an
    entry, as its type says. *)
Definition creditDay (entry : DayEntry.t num) t : DayEntry.t num :=
  match Transaction.type t with
  | income =>
      DayEntry.mk (DayEntry.day entry)
        (num_add (DayEntry.income entry) (Transaction.amount t))
        (DayEntry.expense entry)
  | expense =>
      DayEntry.mk (DayEntry.day entry) (DayEntry.income entry)
        (num_add (DayEntry.expense entry) (Transaction.amount t))
  end.

End Vocabulary.

(** ** Concrete states

    The states below are reached from a first start of the application by
    calls of the operations above. *)

Definition freshStart {num : Type} {N : Number num} : State num :=
  loadTransactions (restore (initialState None None)).

Definition firstStart : State Z := freshStart.

(** The second sample account logged in, over the sample ledger. *)
Definition testUser : User.t :=
  User.mk "2" "Test User" "user@example.com" false.

Definition testUserSession : State Z :=
  fst (login firstStart "user@example.com" "user123").

Definition fuel : NewTransaction.t Z :=
  NewTransaction.mk 2500 expense "Transport" "Fuel" None.

(** One [add] at the instant 1700000000000. *)
Definition fuelAdded : State Z :=
  addTransaction testUserSession 1700000000000 fuel.

(** Two transactions entered one second apart for the same dated
    instant. *)
Definition lunch : NewTransaction.t Z :=
  NewTransaction.mk 300 expense "Food" "Lunch" (Some "2024-01-15T12:00:00Z").

Definition coffee : NewTransaction.t Z :=
  NewTransaction.mk 120 expense "Food" "Coffee" (Some "2024-01-15T12:00:00Z").

Definition sameDateTwice : State Z :=
  addTransaction (addTransaction testUserSession 1705320000000 lunch)
    1705320001000 coffee.

(** A user whose stored ledger was empty enters four amounts with decimals,
    as binary64 numbers: 0.1 and 2.2 for food, 0.3 and 0.5 for transport. *)
Definition emptyLedgerSession : State float :=
  fst (login (loadTransactions (restore (initialState None (Some []))))
         "user@example.com" "user123").

Definition decimalsLedger : State float :=
  let add now amount category s :=
    addTransaction s now
      (NewTransaction.mk amount expense category "" None) in
  add 1700000003000 0x1p-1%float "Transport"
    (add 1700000002000 0x1.3333333333333p-2%float "Transport"
       (add 1700000001000 0x1.199999999999ap+1%float "Food"
          (add 1700000000000 0x1.999999999999ap-4%float "Food"
             emptyLedgerSession))).

(** A hyphenated category next to the sample ones. *)
Definition coopAdded : State Z :=
  addTransaction testUserSession 1700000000000
    (NewTransaction.mk 450 expense "Co-op" "Groceries" None).

(** Seven months entered with the latest one first. *)
Definition monthsOutOfOrder : State Z :=
  fold_left
    (fun s '(now, date) =>
       addTransaction s now
         (NewTransaction.mk 100 expense "Bills" "" (Some date)))
    [ (1703000000000, "2023-12-05T09:00:00Z");
      (1703000001000, "2023-01-05T09:00:00Z");
      (1703000002000, "2023-02-05T09:00:00Z");
      (1703000003000, "2023-03-05T09:00:00Z");
      (1703000004000, "2023-04-05T09:00:00Z");
      (1703000005000, "2023-05-05T09:00:00Z");
      (1703000006000, "2023-06-05T09:00:00Z") ]
    (fst (login (loadTransactions (restore (initialState None (Some []))))
            "user@example.com" "user123")).

(** The examples run on the machine on UTC unless they say otherwise. *)
#[local] Existing Instance utc_host.

(** * Properties *)

(** ** Sorting and slicing *)

Section SortFacts.
Context {A : Type} (compareFn : A -> A -> option Z).

Lemma sort_insert_perm (x : A) (l : list A) :
  Permutation (sort_insert compareFn x l) (x :: l).
Proof.
  induction l as [|y l IH]; simpl; [reflexivity|].
  destruct (comes_after compareFn x y); [|reflexivity].
  rewrite IH. apply perm_swap.
Qed.

Lemma Array_sort_perm (l : list A) : Permutation (Array_sort compareFn l) l.
Proof.
  induction l as [|x l IH]; simpl; [constructor|].
  rewrite sort_insert_perm. now constructor.
Qed.

Lemma Array_sort_In (l : list A) (x : A) :
  In x (Array_sort compareFn l) <-> In x l.
Proof.
  split; apply Permutation_in;
    [apply Array_sort_perm | symmetry; apply Array_sort_perm].
Qed.

Lemma Array_sort_length (l : list A) :
  List.length (Array_sort compareFn l) = List.length l.
Proof. apply Permutation_length, Array_sort_perm. Qed.

(** Stability: two elements that both satisfy [p] are never exchanged when
    the comparator never puts one of them behind the other. *)
Section Stable.
Variable p : A -> bool.
Hypothesis p_tied :
  forall x y, comes_after compareFn x y = true ->
              p x = true -> p y = true -> False.

Lemma sort_insert_filter (x : A) (l : list A) :
  filter p (sort_insert compareFn x l) = filter p (x :: l).
Proof.
  induction l as [|y l IH]; [reflexivity|].
  cbn [sort_insert].
  destruct (comes_after compareFn x y) eqn:Hxy; [|reflexivity].
  cbn [filter] in *. rewrite IH.
  destruct (p x) eqn:Hx, (p y) eqn:Hy; try reflexivity.
  exfalso. eapply p_tied; eassumption.
Qed.

Lemma Array_sort_filter (l : list A) :
  filter p (Array_sort compareFn l) = filter p l.
Proof.
  induction l as [|x l IH]; [reflexivity|].
  cbn [Array_sort]. rewrite sort_insert_filter.
  cbn [filter]. now rewrite IH.
Qed.

End Stable.

(** Order: where the comparator is [key b - key a], the outcome is
    descending in [key]. *)
Section Sorted.
Variable key : A -> Z.

Lemma sort_insert_sorted (x : A) (l : list A) :
  (forall y, In y l -> comes_after compareFn x y = (key x <? key y)) ->
  StronglySorted (descending key) l ->
  StronglySorted (descending key) (sort_insert compareFn x l).
Proof.
  induction l as [|y l IH]; intros Hcmp Hs; cbn [sort_insert].
  - repeat constructor.
  - inversion Hs as [|? ? Hl Hy]; subst.
    rewrite (Hcmp y (or_introl eq_refl)).
    destruct (key x <? key y) eqn:Hlt.
    + apply Z.ltb_lt in Hlt. constructor.
      * apply IH; [|assumption]. intros z Hz. apply Hcmp. now right.
      * eapply Permutation_Forall;
          [symmetry; apply sort_insert_perm|].
        constructor; [unfold descending; lia | assumption].
    + apply Z.ltb_ge in Hlt. constructor; [assumption|].
      constructor; [exact Hlt|].
      eapply Forall_impl; [|exact Hy].
      unfold descending. intros z Hz. lia.
Qed.

Lemma Array_sort_sorted (l : list A) :
  (forall a b, In a l -> In b l ->
               comes_after compareFn a b = (key a <? key b)) ->
  StronglySorted (descending key) (Array_sort compareFn l).
Proof.
  induction l as [|x l IH]; intros Hcmp; cbn [Array_sort].
  - constructor.
  - apply sort_insert_sorted.
    + intros y Hy. apply (proj1 (Array_sort_In l y)) in Hy.
      apply Hcmp; [now left | now right].
    + apply IH. intros a b Ha Hb. apply Hcmp; now right.
Qed.

(** A list in descending order is determined by its elements of each key
    taken in order: a stable sort has one outcome only. *)
Lemma sorted_stable_unique (l1 l2 : list A) :
  StronglySorted (descending key) l1 ->
  StronglySorted (descending key) l2 ->
  (forall d, filter (fun a => key a =? d) l1
             = filter (fun a => key a =? d) l2) ->
  l1 = l2.
Proof.
  revert l2. induction l1 as [|x l1 IH]; intros l2 Hs1 Hs2 Hsame.
  - destruct l2 as [|y l2]; [reflexivity|].
    specialize (Hsame (key y)). cbn [filter] in Hsame.
    rewrite Z.eqb_refl in Hsame. discriminate Hsame.
  - destruct l2 as [|y l2].
    + specialize (Hsame (key x)). cbn [filter] in Hsame.
      rewrite Z.eqb_refl in Hsame. discriminate Hsame.
    + inversion Hs1 as [|? ? Hs1' Hx]; subst.
      inversion Hs2 as [|? ? Hs2' Hy]; subst.
      rewrite Forall_forall in Hx, Hy.
      assert (Hyx : key y <= key x).
      { pose proof (Hsame (key y)) as E. cbn [filter] in E.
        rewrite Z.eqb_refl in E.
        destruct (key x =? key y) eqn:Exy; [apply Z.eqb_eq in Exy; lia|].
        assert (Hin : In y (filter (fun a => key a =? key y) l1))
          by (rewrite E; now left).
        apply filter_In in Hin. apply (Hx y), Hin. }
      assert (Hxy : key x <= key y).
      { pose proof (Hsame (key x)) as E. cbn [filter] in E.
        rewrite Z.eqb_refl in E.
        destruct (key y =? key x) eqn:Eyx; [apply Z.eqb_eq in Eyx; lia|].
        assert (Hin : In x (filter (fun a => key a =? key x) l2))
          by (rewrite <- E; now left).
        apply filter_In in Hin. apply (Hy x), Hin. }
      assert (Ek : key y = key x) by lia.
      pose proof (Hsame (key x)) as E. cbn [filter] in E.
      rewrite Ek, Z.eqb_refl in E. injection E as <- E.
      f_equal. apply IH; try assumption.
      intros d. specialize (Hsame d). cbn [filter] in Hsame.
      destruct (key x =? d); [now injection Hsame | assumption].
Qed.

End Sorted.
End SortFacts.

Section SliceFacts.
Context {A : Type}.

Lemma Array_slice_0 (l : list A) (n : Z) :
  Array_slice l 0 n
  = firstn (Z.to_nat (relative_index (Z.of_nat (List.length l)) n)) l.
Proof.
  unfold Array_slice.
  replace (relative_index (Z.of_nat (List.length l)) 0) with 0.
  - cbn [Z.to_nat skipn]. now rewrite Z.sub_0_r.
  - unfold relative_index. cbn. lia.
Qed.

Lemma Array_slice_0_prefix (l : list A) (n : Z) :
  exists rest, l = Array_slice l 0 n ++ rest.
Proof.
  rewrite Array_slice_0. eexists. symmetry. apply firstn_skipn.
Qed.

Lemma Array_slice_0_length (l : list A) (n : Z) :
  0 <= n -> Z.of_nat (List.length (Array_slice l 0 n)) <= n.
Proof.
  intros Hn. rewrite Array_slice_0, length_firstn.
  unfold relative_index. destruct (n <? 0) eqn:E; lia.
Qed.

End SliceFacts.

(** ** Dictionaries and grouping *)

Section DedupeFacts.
Context {K : Type} (eqb : K -> K -> bool).
Hypothesis eqb_spec : forall a b, eqb a b = true <-> a = b.

Lemma dedupe_snoc (l : list K) (k : K) :
  dedupe eqb (l ++ [k])
  = if existsb (eqb k) (dedupe eqb l) then dedupe eqb l
    else dedupe eqb l ++ [k].
Proof. unfold dedupe. now rewrite fold_left_app. Qed.

Lemma existsb_eqb_In (k : K) (l : list K) :
  existsb (eqb k) l = true <-> In k l.
Proof.
  rewrite existsb_exists. split.
  - intros (x & Hin & He). apply eqb_spec in He. now subst.
  - intros Hin. exists k. split; [assumption | now apply eqb_spec].
Qed.

Lemma existsb_eqb_not_In (k : K) (l : list K) :
  existsb (eqb k) l = false <-> ~ In k l.
Proof.
  rewrite <- existsb_eqb_In. destruct (existsb (eqb k) l); split;
    congruence.
Qed.

Lemma dedupe_In (l : list K) (k : K) : In k (dedupe eqb l) <-> In k l.
Proof.
  induction l as [|x l IH] using rev_ind; [reflexivity|].
  rewrite dedupe_snoc, in_app_iff. cbn [In].
  destruct (existsb (eqb x) (dedupe eqb l)) eqn:E.
  - apply existsb_eqb_In in E. rewrite IH.
    split; [tauto|]. intros [H|[<-|[]]]; [assumption | now apply IH].
  - rewrite in_app_iff, IH. cbn [In]. tauto.
Qed.

Lemma dedupe_NoDup (l : list K) : NoDup (dedupe eqb l).
Proof.
  induction l as [|x l IH] using rev_ind; [constructor|].
  rewrite dedupe_snoc.
  destruct (existsb (eqb x) (dedupe eqb l)) eqn:E; [assumption|].
  apply existsb_eqb_not_In in E.
  apply NoDup_rev in IH. rewrite <- (rev_involutive (_ ++ _)).
  apply NoDup_rev. rewrite rev_app_distr. cbn [rev app].
  constructor; [|assumption]. now rewrite <- in_rev.
Qed.

Lemma existsb_dedupe (l : list K) (k : K) :
  existsb (eqb k) (dedupe eqb l) = existsb (eqb k) l.
Proof.
  destruct (existsb (eqb k) l) eqn:E.
  - apply existsb_eqb_In, dedupe_In, existsb_eqb_In, E.
  - apply existsb_eqb_not_In. rewrite dedupe_In.
    now apply existsb_eqb_not_In.
Qed.

End DedupeFacts.

Lemma existsb_eqb_map {K L : Type} (eqK : K -> K -> bool)
    (eqL : L -> L -> bool) (f : K -> L) (x : K) (l : list K) :
  (forall a b, eqL (f a) (f b) = eqK a b) ->
  existsb (eqL (f x)) (map f l) = existsb (eqK x) l.
Proof.
  intros Hf. induction l as [|y l IH]; [reflexivity|].
  cbn [map existsb]. now rewrite Hf, IH.
Qed.

(** Deduplication commutes with an injective relabelling. *)
Lemma dedupe_map {K L : Type} (eqK : K -> K -> bool) (eqL : L -> L -> bool)
    (f : K -> L) (l : list K) :
  (forall a b, eqL (f a) (f b) = eqK a b) ->
  dedupe eqL (map f l) = map f (dedupe eqK l).
Proof.
  intros Hf. induction l as [|x l IH] using rev_ind; [reflexivity|].
  rewrite map_app. cbn [map]. rewrite !dedupe_snoc, IH.
  rewrite (existsb_eqb_map eqK eqL f x _ Hf).
  destruct (existsb (eqK x) (dedupe eqK l)); [reflexivity|].
  now rewrite map_app.
Qed.

Lemma String_eqb_spec (a b : string) : String.eqb a b = true <-> a = b.
Proof. apply String.eqb_eq. Qed.

Section ObjFacts.
Context {V : Type}.
Implicit Type o : Obj V.

Lemma Obj_get_tabulate (f : string -> V) (ks : list string) (k : string) :
  Obj_get (tabulate f ks) k
  = if existsb (String.eqb k) ks then Some (f k) else None.
Proof.
  induction ks as [|k0 ks IH]; [reflexivity|].
  cbn [tabulate map Obj_get existsb]. rewrite (String.eqb_sym k k0).
  destruct (String.eqb k0 k) eqn:E.
  - apply String.eqb_eq in E. now subst.
  - exact IH.
Qed.

Lemma Obj_set_tabulate (f : string -> V) (ks : list string) (k : string)
    (v : V) :
  NoDup ks ->
  Obj_set (tabulate f ks) k v
  = tabulate (fun k' => if String.eqb k' k then v else f k')
      (if existsb (String.eqb k) ks then ks else ks ++ [k]).
Proof.
  induction ks as [|k0 ks IH]; intros Hnd.
  - cbn. now rewrite String.eqb_refl.
  - inversion Hnd as [|? ? Hnotin Hnd']; subst.
    cbn [tabulate map Obj_set existsb]. rewrite (String.eqb_sym k k0).
    destruct (String.eqb k0 k) eqn:E.
    + apply String.eqb_eq in E. subst k0.
      cbn [orb map]. rewrite String.eqb_refl. f_equal.
      apply map_ext_in. intros k' Hin.
      destruct (String.eqb k' k) eqn:E'; [|reflexivity].
      apply String.eqb_eq in E'. now subst.
    + cbn [orb]. specialize (IH Hnd'). unfold tabulate in IH. rewrite IH.
      destruct (existsb (String.eqb k) ks); cbn [app map]; rewrite E;
        reflexivity.
Qed.

Lemma Object_entries_plain o :
  Forall (fun kv => is_array_index (fst kv) = false) o ->
  Object_entries o = o.
Proof.
  intros Hplain. unfold Object_entries.
  assert (E1 : filter (fun kv : string * V => is_array_index (fst kv)) o = []).
  { induction Hplain as [|kv o Hkv _ IH]; [reflexivity|].
    cbn [filter]. now rewrite Hkv. }
  assert (E2 : filter (fun kv : string * V => negb (is_array_index (fst kv))) o
               = o).
  { clear E1. induction Hplain as [|kv o Hkv _ IH]; [reflexivity|].
    cbn [filter]. rewrite Hkv. cbn [negb]. now f_equal. }
  now rewrite E1, E2.
Qed.

Lemma Object_entries_tabulate (f : string -> V) (ks : list string) :
  Forall (fun k => is_array_index k = false) ks ->
  Object_entries (tabulate f ks) = tabulate f ks.
Proof.
  intros H. apply Object_entries_plain. unfold tabulate.
  rewrite Forall_map. exact H.
Qed.

End ObjFacts.

(** The loop that groups a list into a dictionary: each element updates the
    entry of its key from the entry's previous value, if any.  When [val]
    follows the updates, the dictionary is [val] tabulated over the keys in
    the order of their first occurrence. *)
Section Grouping.
Context {T V : Type}.
Variable key : T -> string.
Variable update : option V -> T -> V.
Variable val : string -> list T -> V.

Hypothesis val_new : forall l x,
  existsb (String.eqb (key x)) (map key l) = false ->
  val (key x) (l ++ [x]) = update None x.
Hypothesis val_old : forall l x,
  existsb (String.eqb (key x)) (map key l) = true ->
  val (key x) (l ++ [x]) = update (Some (val (key x) l)) x.
Hypothesis val_other : forall l x k,
  k <> key x -> val k (l ++ [x]) = val k l.

Lemma groupStep_fold (l : list T) :
  fold_left (groupStep key update) l []
  = tabulate (fun k => val k l) (firstSeen (map key l)).
Proof.
  induction l as [|x l IH] using rev_ind; [reflexivity|].
  rewrite fold_left_app. cbn [fold_left]. rewrite IH.
  unfold groupStep, firstSeen.
  rewrite Obj_get_tabulate,
    (Obj_set_tabulate _ _ _ _ (dedupe_NoDup _ String_eqb_spec _)).
  rewrite map_app. cbn [map]. rewrite dedupe_snoc.
  rewrite (existsb_dedupe _ String_eqb_spec).
  destruct (existsb (String.eqb (key x)) (map key l)) eqn:E.
  - apply map_ext_in. intros k _. f_equal.
    destruct (String.eqb k (key x)) eqn:Ek.
    + apply String.eqb_eq in Ek. subst k. symmetry. now apply val_old.
    + apply String.eqb_neq in Ek. symmetry. now apply val_other.
  - apply map_ext_in. intros k _. f_equal.
    destruct (String.eqb k (key x)) eqn:Ek.
    + apply String.eqb_eq in Ek. subst k. symmetry. now apply val_new.
    + apply String.eqb_neq in Ek. symmetry. now apply val_other.
Qed.

End Grouping.

(** ** Strings: keys that are no array index, injective keys, segments *)

Lemma String_length_append (a b : string) :
  String.length (a ++ b) = (String.length a + String.length b)%nat.
Proof. induction a as [|c a IH]; cbn; [reflexivity | now rewrite IH]. Qed.

Lemma String_append_assoc (a b c : string) :
  ((a ++ b) ++ c = a ++ (b ++ c))%string.
Proof. induction a as [|x a IH]; cbn; [reflexivity | now rewrite IH]. Qed.

Lemma append_suffix_inj (a b s1 s2 : string) :
  String.length s1 = String.length s2 ->
  (a ++ s1 = b ++ s2)%string -> a = b /\ s1 = s2.
Proof.
  revert b. induction a as [|x a IH]; intros [|y b] Hlen Heq; cbn in Heq.
  - now split.
  - apply (f_equal String.length) in Heq. cbn in Heq.
    rewrite String_length_append in Heq. lia.
  - apply (f_equal String.length) in Heq. cbn in Heq.
    rewrite String_length_append in Heq. lia.
  - injection Heq as -> Heq. destruct (IH b Hlen Heq) as [-> ->].
    now split.
Qed.

Lemma all_digits_append (a b : string) (c : ascii) :
  is_digit c = false -> all_digits (a ++ String c b) = false.
Proof.
  intros Hc. induction a as [|x a IH]; cbn [append all_digits].
  - now rewrite Hc.
  - rewrite IH. apply andb_false_r.
Qed.

Lemma not_array_index (a b : string) (c : ascii) :
  is_digit c = false -> is_array_index (a ++ String c b) = false.
Proof.
  intros Hc. unfold is_array_index, array_index.
  now rewrite (all_digits_append a b c Hc).
Qed.

Lemma String_split_nonempty (sep : ascii) (s : string) :
  String_split sep s <> [].
Proof.
  destruct s as [|c s]; cbn [String_split]; [discriminate|].
  destruct (Ascii.eqb c sep); [discriminate|].
  destruct (String_split sep s); discriminate.
Qed.

Lemma hd_String_split (sep : ascii) (s : string) :
  hd "" (String_split sep s) = beforeFirst sep s.
Proof.
  induction s as [|c s IH]; [reflexivity|].
  cbn [String_split beforeFirst].
  destruct (Ascii.eqb c sep); [reflexivity|].
  destruct (String_split sep s) as [|seg segs] eqn:E.
  - destruct (String_split_nonempty sep s E).
  - cbn [hd] in *. now rewrite IH.
Qed.

Lemma beforeFirst_append (sep : ascii) (a rest : string) :
  beforeFirst sep (a ++ String sep rest) = beforeFirst sep a.
Proof.
  induction a as [|c a IH]; cbn [append beforeFirst].
  - now rewrite Ascii.eqb_refl.
  - destruct (Ascii.eqb c sep); [reflexivity | now rewrite IH].
Qed.

Lemma beforeFirst_absent (sep : ascii) (s : string) :
  occursIn sep s = false -> beforeFirst sep s = s.
Proof.
  induction s as [|c s IH]; cbn [occursIn beforeFirst]; [reflexivity|].
  intros H. apply orb_false_iff in H. destruct H as [Hc Hs].
  rewrite Hc. now rewrite IH.
Qed.

Lemma beforeFirst_present (sep : ascii) (s : string) :
  occursIn sep s = true ->
  exists rest, s = (beforeFirst sep s ++ String sep rest)%string.
Proof.
  induction s as [|c s IH]; cbn [occursIn beforeFirst]; [discriminate|].
  destruct (Ascii.eqb c sep) eqn:Hc.
  - intros _. apply Ascii.eqb_eq in Hc. subst c. now exists s.
  - cbn [orb]. intros H. destruct (IH H) as [rest Hrest].
    exists rest. cbn [append]. now rewrite <- Hrest.
Qed.

Lemma beforeFirst_free (sep : ascii) (s : string) :
  occursIn sep (beforeFirst sep s) = false.
Proof.
  induction s as [|c s IH]; cbn [beforeFirst]; [reflexivity|].
  destruct (Ascii.eqb c sep) eqn:Hc; [reflexivity|].
  cbn [occursIn]. now rewrite Hc, IH.
Qed.

(** The key of a group determines the group. *)
Lemma keyOfGroup_inj (g h : Group) : keyOfGroup g = keyOfGroup h -> g = h.
Proof.
  destruct g as [c1 t1], h as [c2 t2]. unfold keyOfGroup. cbn [fst snd].
  intros H. destruct t1, t2; cbn [typeString] in H.
  - apply append_suffix_inj in H; [|reflexivity]. now destruct H as [-> _].
  - exfalso.
    assert (E : ((c1 ++ "-") ++ "income" = (c2 ++ "-e") ++ "xpense")%string)
      by (rewrite !String_append_assoc; exact H).
    apply append_suffix_inj in E; [|reflexivity].
    destruct E as [_ E]. discriminate E.
  - exfalso.
    assert (E : ((c1 ++ "-e") ++ "xpense" = (c2 ++ "-") ++ "income")%string)
      by (rewrite !String_append_assoc; exact H).
    apply append_suffix_inj in E; [|reflexivity].
    destruct E as [_ E]. discriminate E.
  - apply append_suffix_inj in H; [|reflexivity]. now destruct H as [-> _].
Qed.

Lemma Group_eqb_spec (g h : Group) : Group_eqb g h = true <-> g = h.
Proof.
  destruct g as [c1 t1], h as [c2 t2]. unfold Group_eqb. cbn [fst snd].
  rewrite andb_true_iff, String.eqb_eq. split.
  - intros [-> Ht]. destruct t1, t2; try discriminate; reflexivity.
  - intros [= -> ->]. split; [reflexivity | now destruct t2].
Qed.

Lemma keyOfGroup_eqb (g h : Group) :
  String.eqb (keyOfGroup g) (keyOfGroup h) = Group_eqb g h.
Proof.
  destruct (Group_eqb g h) eqn:E.
  - apply Group_eqb_spec in E. subst. apply String.eqb_refl.
  - apply String.eqb_neq. intros H. apply keyOfGroup_inj in H.
    apply Group_eqb_spec in H. congruence.
Qed.

(** ** Sums *)

Lemma Permutation_filter {A : Type} (p : A -> bool) (l l' : list A) :
  Permutation l l' -> Permutation (filter p l) (filter p l').
Proof.
  induction 1 as [|x l l' _ IH|x y l|l l' l'' _ IH1 _ IH2]; cbn [filter].
  - constructor.
  - destruct (p x); [now constructor | assumption].
  - destruct (p x), (p y); try reflexivity. apply perm_swap.
  - now transitivity (filter p l').
Qed.

Lemma insertions_In {A : Type} (x : A) (before after : list A) :
  In (before ++ x :: after) (insertions x (before ++ after)).
Proof.
  induction before as [|y before IH]; cbn [app insertions].
  - destruct after; now left.
  - right. now apply in_map.
Qed.

(** [orders l] lists every permutation of [l]. *)
Lemma orders_complete {A : Type} (l p : list A) :
  Permutation l p -> In p (orders l).
Proof.
  revert p. induction l as [|x l IH]; intros p Hp; cbn [orders].
  - apply Permutation_nil in Hp. subst. now left.
  - assert (Hx : In x p) by (eapply Permutation_in; [exact Hp | now left]).
    destruct (in_split _ _ Hx) as (before & after & ->).
    apply Permutation_cons_app_inv in Hp.
    apply in_flat_map. exists (before ++ after).
    split; [now apply IH | apply insertions_In].
Qed.

Lemma filter_nil_of_absent {T K : Type} (eqb : K -> K -> bool) (key : T -> K)
    (k : K) (l : list T) :
  existsb (eqb k) (map key l) = false ->
  filter (fun x => eqb k (key x)) l = [].
Proof.
  induction l as [|x l IH]; [reflexivity|].
  cbn [map existsb filter]. intros H. apply orb_false_iff in H.
  destruct H as [Hx Hl]. rewrite Hx. now apply IH.
Qed.

Lemma filter_cons_of_present {T K : Type} (eqb : K -> K -> bool)
    (key : T -> K) (k : K) (l : list T) :
  existsb (eqb k) (map key l) = true ->
  exists x rest, filter (fun x => eqb k (key x)) l = x :: rest
                 /\ eqb k (key x) = true.
Proof.
  induction l as [|x l IH]; [discriminate|].
  cbn [map existsb filter]. destruct (eqb k (key x)) eqn:E.
  - intros _. now exists x, (filter (fun x => eqb k (key x)) l).
  - cbn [orb]. exact IH.
Qed.

Section TotalFacts.
Context {num : Type} {N : Number num}.

Lemma total_snoc (l : list num) (a : num) :
  total (l ++ [a]) = num_add (total l) a.
Proof. unfold total. now rewrite fold_left_app. Qed.

Lemma total_one (a : num) : total [a] = num_add num_zero a.
Proof. reflexivity. Qed.

(** Exact arithmetic: addition is associative and commutative and [0] is
    neutral, as for integer amounts. *)
Section Exact.
Hypothesis add_assoc :
  forall a b c : num, num_add a (num_add b c) = num_add (num_add a b) c.
Hypothesis add_comm : forall a b : num, num_add a b = num_add b a.
Hypothesis add_0_l : forall a : num, num_add num_zero a = a.

Lemma fold_add_total (l : list num) (a : num) :
  fold_left num_add l a = num_add a (total l).
Proof.
  unfold total. revert a. induction l as [|x l IH]; intros a; cbn [fold_left].
  - now rewrite add_comm, add_0_l.
  - rewrite IH, (IH (num_add num_zero x)), add_0_l. apply eq_sym, add_assoc.
Qed.

Lemma total_cons (a : num) (l : list num) :
  total (a :: l) = num_add a (total l).
Proof.
  unfold total at 1. cbn [fold_left]. now rewrite fold_add_total, add_0_l.
Qed.

Lemma total_perm (l l' : list num) :
  Permutation l l' -> total l = total l'.
Proof.
  induction 1 as [|x l l' _ IH|x y l|l l' l'' _ IH1 _ IH2].
  - reflexivity.
  - now rewrite !total_cons, IH.
  - rewrite !total_cons, !add_assoc. f_equal. apply add_comm.
  - congruence.
Qed.

(** Raising one summand by [a] raises the sum by [a]. *)
Lemma total_map_bump {K : Type} (f g : K -> num) (ks : list K) (k0 : K)
    (a : num) :
  NoDup ks -> In k0 ks ->
  (forall k, In k ks -> k <> k0 -> g k = f k) ->
  g k0 = num_add (f k0) a ->
  total (map g ks) = num_add (total (map f ks)) a.
Proof.
  intros Hnd Hin Hsame Hbump.
  induction ks as [|k ks IH]; [destruct Hin|].
  inversion Hnd as [|? ? Hk Hnd']; subst.
  cbn [map]. rewrite !total_cons.
  destruct Hin as [->|Hin].
  - rewrite Hbump.
    replace (map g ks) with (map f ks).
    + rewrite <- !add_assoc. f_equal. apply add_comm.
    + apply map_ext_in. intros k Hin. symmetry.
      apply Hsame; [now right | intros ->; contradiction].
  - rewrite IH; try assumption.
    + rewrite (Hsame k);
        [apply add_assoc | now left | intros ->; contradiction].
    + intros k' Hk' Hne. apply Hsame; [now right | assumption].
Qed.

End Exact.
End TotalFacts.

(** ** Days of the week *)

Section DateFacts.
Context {host : Host}.

Lemma getDay_range (t : Z) : 0 <= getDay t < 7.
Proof. unfold getDay. apply Z.mod_pos_bound. lia. Qed.

Lemma getDay_daysEarlier (today i : Z) :
  getDay (daysEarlier today i) = (getDay today - i) mod 7.
Proof.
  unfold getDay, localDay, daysEarlier.
  replace (today - i * msPerDay + utcOffset * 60000)
    with (today + utcOffset * 60000 + (- i) * msPerDay) by ring.
  rewrite Z.div_add by (unfold msPerDay; lia).
  rewrite Zminus_mod_idemp_l. f_equal. ring.
Qed.

Lemma lastSevenDays_ending (today : Z) :
  lastSevenDays today = daysEnding (getDay today).
Proof.
  unfold lastSevenDays, daysEnding. apply map_ext. intros i.
  unfold weekdayShort. now rewrite getDay_daysEarlier.
Qed.

End DateFacts.

Ltac weekday_cases w H :=
  assert (w = 0 \/ w = 1 \/ w = 2 \/ w = 3 \/ w = 4 \/ w = 5 \/ w = 6)
    as H by lia;
  repeat (destruct H as [H|H]); subst w.

Lemma daysEnding_NoDup (w : Z) : 0 <= w < 7 -> NoDup (daysEnding w).
Proof.
  intros Hw. weekday_cases w H; vm_compute;
    repeat (constructor; [cbn; intuition discriminate|]); constructor.
Qed.

Lemma daysEnding_complete (w d : Z) :
  0 <= w < 7 -> 0 <= d < 7 ->
  existsb (String.eqb (nth (Z.to_nat d) weekdayNames "")) (daysEnding w)
  = true.
Proof.
  intros Hw Hd. weekday_cases w H; weekday_cases d H'; reflexivity.
Qed.

Lemma daysEnding_plain (w : Z) :
  0 <= w < 7 -> Forall (fun k => is_array_index k = false) (daysEnding w).
Proof.
  intros Hw. weekday_cases w H; unfold daysEnding; cbn [map];
    repeat (apply Forall_cons; [reflexivity|]); apply Forall_nil.
Qed.

Lemma daysEnding_length (w : Z) : List.length (daysEnding w) = 7%nat.
Proof. reflexivity. Qed.

Lemma seed_tabulate {V : Type} (v : V) (w : Z) :
  0 <= w < 7 ->
  fold_left (fun o k => Obj_set o k v) (daysEnding w) []
  = tabulate (fun _ => v) (daysEnding w).
Proof. intros Hw. weekday_cases w H; reflexivity. Qed.

Lemma Array_slice_from_last6 {A : Type} (l : list A) :
  Array_slice_from l (-6) = lastN 6 l.
Proof.
  unfold Array_slice_from, Array_slice, lastN, relative_index.
  cbn [Z.ltb Z.compare].
  replace (Z.of_nat (List.length l) <? 0) with false
    by (symmetry; apply Z.ltb_ge; lia).
  replace (Z.to_nat (Z.max (Z.of_nat (List.length l) + -6) 0))
    with (List.length l - 6)%nat by lia.
  apply firstn_all2. rewrite length_skipn. lia.
Qed.

(** ** The transaction store *)

Section StoreFacts.
Context {num : Type} {N : Number num} {host : Host}.
Implicit Type s : State num.
Implicit Type t : Transaction.t num.

Lemma comes_after_byDateDesc (a b : Transaction.t num) :
  comes_after byDateDesc a b = true ->
  exists ta tb, getTime a = Some ta /\ getTime b = Some tb /\ ta < tb.
Proof.
  unfold comes_after, byDateDesc.
  destruct (getTime b) as [tb|], (getTime a) as [ta|]; try discriminate.
  intros H. apply Z.ltb_lt in H. exists ta, tb. repeat split; lia.
Qed.

Lemma comes_after_valid (a b : Transaction.t num) :
  getTime a <> None -> getTime b <> None ->
  comes_after byDateDesc a b = (timeOf a <? timeOf b).
Proof.
  unfold comes_after, byDateDesc, timeOf.
  destruct (getTime b) as [tb|], (getTime a) as [ta|]; try congruence.
  intros _ _. destruct (0 <? tb - ta) eqn:E, (ta <? tb) eqn:E'; try reflexivity;
    rewrite ?Z.ltb_lt, ?Z.ltb_ge in *; lia.
Qed.

Lemma occursOnce_of_perm (x : Transaction.t num)
    (l l' : list (Transaction.t num)) :
  Permutation l' (x :: l) -> ~ In x l -> occursOnce x l'.
Proof.
  intros Hp Hn.
  assert (Hin : In x l')
    by (eapply Permutation_in; [symmetry; exact Hp | now left]).
  destruct (in_split _ _ Hin) as (before & after & ->).
  exists before, after. split; [reflexivity|].
  assert (Hrest : Permutation (before ++ after) l).
  { apply Permutation_cons_inv with (a := x).
    rewrite <- Hp. apply Permutation_middle. }
  split; intros H; apply Hn;
    (eapply Permutation_in; [exact Hrest|]); apply in_or_app; auto.
Qed.

Lemma add_transactions s u now tx :
  user s = Some u ->
  transactions (addTransaction s now tx)
  = transactions s ++ [newTransaction u now tx].
Proof. intros Hu. unfold addTransaction. now rewrite Hu. Qed.


(** C9.  With an active session the ledger grows by one transaction whose
    [userId] is the id of the session, whatever the argument (which has no
    [userId] field), and the grown ledger is what is persisted; without a
    session neither the ledger nor its persisted entry changes. *)
Theorem add_owner_is_session s now tx :
  let s' := addTransaction s now tx in
  match user s with
  | Some u =>
      exists new,
        transactions s' = transactions s ++ [new]
        /\ Transaction.userId new = User.id u
        /\ localStorage_transactions s' = Some (transactions s ++ [new])
  | None =>
      transactions s' = transactions s
      /\ localStorage_transactions s' = localStorage_transactions s
  end.
Proof.
  cbv zeta. unfold addTransaction.
  destruct (user s) as [u|].
  - exists (newTransaction u now tx). repeat split.
  - split; reflexivity.
Qed.


Lemma datedAt_timeOf (l : list (Transaction.t num)) (d : Z) :
  Forall (fun t => getTime t <> None) l ->
  filter (datedAt d) l = filter (fun t => timeOf t =? d) l.
Proof.
  intros Hvalid. apply filter_ext_in. intros t Hin.
  rewrite Forall_forall in Hvalid. specialize (Hvalid t Hin).
  unfold datedAt, timeOf. destruct (getTime t); congruence.
Qed.

(** C5, as amended.  [all()] is the whole ledger, and the transactions of
    any one date keep the order in which they were inserted (earlier
    insertion first).  When every date of the ledger is valid, [all()] is in
    descending order of date, and it is the only arrangement of the ledger
    that is in descending order of date with equal dates in insertion
    order. *)
Theorem all_sorted_by_date s :
  Permutation (getAllTransactions s) (transactions s)
  /\ (forall d,
        filter (datedAt d) (getAllTransactions s)
        = filter (datedAt d) (transactions s))
  /\ (Forall (fun t => getTime t <> None) (transactions s) ->
      StronglySorted (descending timeOf) (getAllTransactions s)
      /\ forall l,
           Permutation l (transactions s) ->
           StronglySorted (descending timeOf) l ->
           (forall d, filter (datedAt d) l
                      = filter (datedAt d) (transactions s)) ->
           l = getAllTransactions s).
Proof.
  assert (Hperm : Permutation (getAllTransactions s) (transactions s))
    by apply Array_sort_perm.
  assert (Hties : forall d,
            filter (datedAt d) (getAllTransactions s)
            = filter (datedAt d) (transactions s)).
  { intros d. apply Array_sort_filter. intros x y Hxy Hx Hy.
    destruct (comes_after_byDateDesc _ _ Hxy) as (ta & tb & Ea & Eb & Hlt).
    unfold datedAt in Hx, Hy. rewrite Ea in Hx. rewrite Eb in Hy.
    apply Z.eqb_eq in Hx, Hy. lia. }
  split; [exact Hperm|]. split; [exact Hties|].
  intros Hvalid.
  assert (Hsorted : StronglySorted (descending timeOf) (getAllTransactions s)).
  { apply Array_sort_sorted. intros a b Ha Hb.
    rewrite Forall_forall in Hvalid. apply comes_after_valid; auto. }
  split; [exact Hsorted|].
  intros l Hl Hls Hlt.
  apply (sorted_stable_unique timeOf); try assumption.
  intros d.
  rewrite <- (datedAt_timeOf l d), <- (datedAt_timeOf (getAllTransactions s) d).
  - now rewrite Hlt, Hties.
  - eapply Permutation_Forall; [symmetry; exact Hperm | exact Hvalid].
  - eapply Permutation_Forall; [symmetry; exact Hl | exact Hvalid].
Qed.

End StoreFacts.





Lemma all_sorted_by_date_witness :
  StronglySorted (descending timeOf) (getAllTransactions sameDateTwice).
Proof.
  apply (proj2 (proj2 (all_sorted_by_date sameDateTwice))).
  let l := eval vm_compute in (transactions sameDateTwice) in
  change (transactions sameDateTwice) with l.
  repeat (apply Forall_cons; [vm_compute; discriminate|]). apply Forall_nil.
Defined.

(** C5 as stated fails: of two transactions with the same date the one
    inserted later comes second, not first. *)
Lemma all_ties_not_reversed :
  filter (datedAt 1705320000000) (getAllTransactions sameDateTwice)
  <> rev (filter (datedAt 1705320000000) (transactions sameDateTwice)).
Proof. vm_compute. discriminate. Qed.

(** ** The credential store and the session manager *)

Section AuthFacts.
Context {num : Type}.
Implicit Type s : State num.

Lemma find_none_of_no_match s (email password : string) :
  (forall a, In a (MOCK_USERS s) ->
             ~ (Account.email a = email /\ Account.password a = password)) ->
  find (fun u => String.eqb (Account.email u) email
                 && String.eqb (Account.password u) password)
       (MOCK_USERS s) = None.
Proof.
  intros Hno.
  destruct (find _ (MOCK_USERS s)) as [a|] eqn:E; [|reflexivity].
  apply find_some in E. destruct E as [Hin Hm].
  apply andb_true_iff in Hm. rewrite !String.eqb_eq in Hm.
  destruct (Hno a Hin Hm).
Qed.

(** C8.  When no account has both the email and the secret, [login]
    resolves to [false]; the session is what it was (unset stays unset), the
    persisted session entry is neither written nor removed and the registry
    is untouched.  The same holds of the body of the promise run on any
    state [s]. *)
Theorem login_no_match s (email password : string) :
  (forall a, In a (MOCK_USERS s) ->
             ~ (Account.email a = email /\ Account.password a = password)) ->
  let unchanged (s' : State num) :=
    user s' = user s
    /\ localStorage_user s' = localStorage_user s
    /\ MOCK_USERS s' = MOCK_USERS s
    /\ transactions s' = transactions s in
  (snd (login s email password) = false
   /\ unchanged (fst (login s email password)))
  /\ (snd (login_resolve s email password) = false
      /\ unchanged (fst (login_resolve s email password))).
Proof.
  intros Hno. cbv zeta. unfold login, login_resolve.
  cbn [MOCK_USERS setIsLoading].
  rewrite (find_none_of_no_match s email password Hno).
  repeat split.
Qed.

Lemma existsb_email s (email : string) :
  existsb (fun u => String.eqb (Account.email u) email) (MOCK_USERS s) = true
  <-> exists a, In a (MOCK_USERS s) /\ Account.email a = email.
Proof.
  rewrite existsb_exists.
  split; intros (a & Hin & He); exists a; split; auto;
    now apply String.eqb_eq.
Qed.

(** C7.  When an account with the email exists, [register] resolves to
    [false], the registry (hence its size) is unchanged and no session is
    set or persisted.  Otherwise the registry grows by one account whose id
    is the decimal string of the prior count plus one and whose [isAdmin]
    is [false], and that account, without its password, becomes the
    session.  The same holds of the body of the promise run on any state
    [s]. *)
Theorem register_duplicate_or_new s (name email password : string) :
  let newUser :=
    Account.mk (Z_toString (Z.of_nat (List.length (MOCK_USERS s)) + 1))
      name email password false in
  let rejected (r : State num * bool) :=
    snd r = false
    /\ MOCK_USERS (fst r) = MOCK_USERS s
    /\ List.length (MOCK_USERS (fst r)) = List.length (MOCK_USERS s)
    /\ user (fst r) = user s
    /\ localStorage_user (fst r) = localStorage_user s in
  let created (r : State num * bool) :=
    snd r = true
    /\ MOCK_USERS (fst r) = MOCK_USERS s ++ [newUser]
    /\ Account.isAdmin newUser = false
    /\ user (fst r) = Some (withoutPassword newUser)
    /\ localStorage_user (fst r) = Some (withoutPassword newUser) in
  ((exists a, In a (MOCK_USERS s) /\ Account.email a = email) ->
     rejected (register s name email password)
     /\ rejected (register_resolve s name email password))
  /\ ((forall a, In a (MOCK_USERS s) -> Account.email a <> email) ->
      created (register s name email password)
      /\ created (register_resolve s name email password)).
Proof.
  cbv zeta. unfold register, register_resolve.
  cbn [MOCK_USERS setIsLoading].
  destruct (existsb _ (MOCK_USERS s)) eqn:E.
  - split; [intros _; repeat split|].
    intros Hnone. apply existsb_email in E.
    destruct E as (a & Hin & He). destruct (Hnone a Hin He).
  - split; [|intros _; repeat split].
    intros Hex. apply existsb_email in Hex. congruence.
Qed.

End AuthFacts.

Lemma login_no_match_witness :
  snd (login firstStart "bad@x.com" "wrong") = false
  /\ user (fst (login firstStart "bad@x.com" "wrong")) = None
  /\ localStorage_user (fst (login firstStart "bad@x.com" "wrong"))
     = None.
Proof.
  assert (Hno : forall a, In a (MOCK_USERS firstStart) ->
            ~ (Account.email a = "bad@x.com" /\ Account.password a = "wrong")).
  { intros a Hin [He _]. vm_compute in Hin.
    destruct Hin as [<-|[<-|[]]]; discriminate He. }
  destruct (login_no_match firstStart "bad@x.com" "wrong" Hno)
    as ((Hok & Hu & Hl & _) & _).
  split; [exact Hok|]. split; [exact Hu | exact Hl].
Defined.

Lemma register_duplicate_or_new_witness :
  snd (register firstStart "Eve" "user@example.com" "pw") = false
  /\ List.length
       (MOCK_USERS (fst (register firstStart "Eve" "user@example.com" "pw")))
     = 2%nat
  /\ map Account.id
       (MOCK_USERS (fst (register firstStart "Eve" "eve@example.com" "pw")))
     = ["1"; "2"; "3"].
Proof.
  destruct
    (register_duplicate_or_new firstStart "Eve" "user@example.com" "pw")
    as [Hdup _].
  destruct
    (register_duplicate_or_new firstStart "Eve" "eve@example.com" "pw")
    as [_ Hnew].
  destruct Hdup as ((Hok & _ & Hlen & _) & _).
  { exists (Account.mk "2" "Test User" "user@example.com" "user123" false).
    split; [right; left; reflexivity | reflexivity]. }
  destruct Hnew as ((_ & Hreg & _) & _).
  { intros a Hin He. vm_compute in Hin.
    destruct Hin as [<-|[<-|[]]]; discriminate He. }
  split; [exact Hok|]. split; [exact Hlen|].
  rewrite Hreg. reflexivity.
Defined.

(** ** The category aggregation *)

Section CategoryFacts.
Context {num : Type} {N : Number num}.
Implicit Type s : State num.
Implicit Type t : Transaction.t num.

Lemma categoryVal_new (l : list (Transaction.t num)) t :
  existsb (String.eqb (categoryKey t)) (map categoryKey l) = false ->
  categoryVal (categoryKey t) (l ++ [t]) = categoryUpdate None t.
Proof.
  intros H. unfold categoryVal, withKey.
  rewrite filter_app, (filter_nil_of_absent _ _ _ _ H).
  cbn [filter app]. now rewrite String.eqb_refl.
Qed.

Lemma categoryVal_old (l : list (Transaction.t num)) t :
  existsb (String.eqb (categoryKey t)) (map categoryKey l) = true ->
  categoryVal (categoryKey t) (l ++ [t])
  = categoryUpdate (Some (categoryVal (categoryKey t) l)) t.
Proof.
  intros H. unfold categoryVal, withKey.
  destruct (filter_cons_of_present _ _ _ _ H) as (first & rest & E & _).
  rewrite filter_app, E. cbn [filter]. rewrite String.eqb_refl.
  unfold categoryUpdate, amounts. cbn [CategoryTotal.amount CategoryTotal.type].
  rewrite map_app. cbn [map]. now rewrite total_snoc.
Qed.

Lemma categoryVal_other (l : list (Transaction.t num)) t (k : string) :
  k <> categoryKey t -> categoryVal k (l ++ [t]) = categoryVal k l.
Proof.
  intros H. unfold categoryVal, withKey.
  rewrite filter_app. cbn [filter].
  apply String.eqb_neq in H. rewrite H. now rewrite app_nil_r.
Qed.

Lemma categoryKey_plain t : is_array_index (categoryKey t) = false.
Proof. unfold categoryKey. now apply not_array_index. Qed.

Lemma categoryKey_group t : categoryKey t = keyOfGroup (groupOf t).
Proof. reflexivity. Qed.

Lemma withKey_inGroup (g : Group) t : withKey (keyOfGroup g) t = inGroup g t.
Proof.
  unfold withKey, inGroup. rewrite categoryKey_group, keyOfGroup_eqb.
  destruct (Group_eqb g (groupOf t)) eqn:E.
  - apply Group_eqb_spec in E. subst. symmetry. now apply Group_eqb_spec.
  - destruct (Group_eqb (groupOf t) g) eqn:E'; [|reflexivity].
    apply Group_eqb_spec in E'. subst.
    assert (Group_eqb (groupOf t) (groupOf t) = true)
      by now apply Group_eqb_spec.
    congruence.
Qed.

Lemma firstSegment_key (g : Group) :
  firstSegment (keyOfGroup g) = beforeFirst "-" (fst g).
Proof.
  unfold firstSegment, keyOfGroup. rewrite hd_String_split.
  apply beforeFirst_append.
Qed.

(** [getCategoryData] for any arithmetic: one entry per group of the
    session's transactions, in the order of first occurrence. *)
Lemma getCategoryData_groups s (u : User.t) :
  user s = Some u ->
  let mine := filter (ownedBy (User.id u)) (transactions s) in
  getCategoryData s
  = map (fun g =>
           CategoryEntry.mk (beforeFirst "-" (fst g)) (bucketTotal mine g)
             (snd g))
        (groupsOf mine).
Proof.
  intros Hu mine. unfold getCategoryData. rewrite Hu. fold mine.
  change (fold_left categoryStep mine [])
    with (fold_left (groupStep categoryKey categoryUpdate) mine []).
  rewrite (groupStep_fold categoryKey categoryUpdate categoryVal
             categoryVal_new categoryVal_old categoryVal_other).
  rewrite Object_entries_tabulate.
  2:{ apply Forall_forall. intros k Hk.
      apply (dedupe_In _ String_eqb_spec), in_map_iff in Hk.
      destruct Hk as (t & <- & _). apply categoryKey_plain. }
  unfold tabulate, firstSeen, groupsOf. rewrite map_map.
  replace (map categoryKey mine) with (map keyOfGroup (map groupOf mine))
    by (rewrite map_map; reflexivity).
  rewrite (dedupe_map Group_eqb String.eqb keyOfGroup _ keyOfGroup_eqb).
  rewrite map_map. apply map_ext_in. intros g Hg.
  apply (dedupe_In _ Group_eqb_spec), in_map_iff in Hg.
  destruct Hg as (t & Hgt & Ht).
  rewrite firstSegment_key. unfold categoryVal, bucketTotal.
  cbn [CategoryTotal.amount CategoryTotal.type].
  rewrite (filter_ext _ _ (withKey_inGroup g)).
  f_equal.
  destruct (filter (inGroup g) mine) as [|first rest] eqn:E.
  - exfalso. assert (Hin : In t (filter (inGroup g) mine)).
    { apply filter_In. split; [assumption|].
      unfold inGroup. now apply Group_eqb_spec. }
    rewrite E in Hin. destruct Hin.
  - assert (Hin : In first (filter (inGroup g) mine))
      by (rewrite E; now left).
    apply filter_In in Hin. destruct Hin as [_ Hin].
    apply Group_eqb_spec in Hin. now rewrite <- Hin.
Qed.

(** C10.  The bucket of a transaction of the session is an entry of
    [byCategory()] whose category is the first segment of the key
    [category + "-" + type] split at hyphens; that is the category up to its
    first hyphen, so the category itself when it has no hyphen. *)
Theorem category_reported_up_to_hyphen s (u : User.t) t :
  user s = Some u ->
  In t (transactions s) ->
  Transaction.userId t = User.id u ->
  let mine := filter (ownedBy (User.id u)) (transactions s) in
  let reported := hd "" (String_split "-" (categoryKey t)) in
  In (CategoryEntry.mk reported (bucketTotal mine (groupOf t))
        (Transaction.type t))
     (getCategoryData s)
  /\ reported = beforeFirst "-" (Transaction.category t)
  /\ (occursIn "-" (Transaction.category t) = true ->
      occursIn "-" reported = false
      /\ exists rest,
           Transaction.category t = (reported ++ "-" ++ rest)%string)
  /\ (occursIn "-" (Transaction.category t) = false ->
      reported = Transaction.category t).
Proof.
  intros Hu Hin Hown mine reported.
  assert (Hrep : reported = beforeFirst "-" (Transaction.category t))
    by apply (firstSegment_key (groupOf t)).
  split; [|split; [exact Hrep|split]].
  - rewrite (getCategoryData_groups s u Hu). fold mine. apply in_map_iff.
    exists (groupOf t). split; [now rewrite Hrep|].
    apply (dedupe_In _ Group_eqb_spec), in_map. apply filter_In.
    split; [assumption|]. unfold ownedBy. now apply String.eqb_eq.
  - intros Hhyphen. rewrite Hrep. split; [apply beforeFirst_free|].
    apply (beforeFirst_present "-" _ Hhyphen).
  - intros Hnone. rewrite Hrep. now apply beforeFirst_absent.
Qed.

End CategoryFacts.

Lemma category_reported_up_to_hyphen_witness :
  In (CategoryEntry.mk "Co" 450 expense) (getCategoryData coopAdded).
Proof.
  exact (proj1
    (category_reported_up_to_hyphen coopAdded testUser
       (Transaction.mk "1700000000000" "2" 450 expense "Co-op" "Groceries"
          "2023-11-14T22:13:20.000Z")
       eq_refl
       ltac:(vm_compute; do 6 right; left; reflexivity)
       eq_refl)).
Defined.

(** With exact addition the buckets partition the session's total. *)
Section CategorySums.
Context {num : Type} {N : Number num} {host : Host}.
Implicit Type s : State num.
Implicit Type t : Transaction.t num.

Hypothesis add_assoc :
  forall a b c : num, num_add a (num_add b c) = num_add (num_add a b) c.
Hypothesis add_comm : forall a b : num, num_add a b = num_add b a.
Hypothesis add_0_l : forall a : num, num_add num_zero a = a.

Lemma bucketTotal_snoc (l : list (Transaction.t num)) t (g : Group) :
  bucketTotal (l ++ [t]) g
  = if inGroup g t then num_add (bucketTotal l g) (Transaction.amount t)
    else bucketTotal l g.
Proof.
  unfold bucketTotal, amounts. rewrite filter_app. cbn [filter].
  destruct (inGroup g t).
  - rewrite map_app. cbn [map]. apply total_snoc.
  - now rewrite app_nil_r.
Qed.

Lemma inGroup_own t : inGroup (groupOf t) t = true.
Proof. unfold inGroup. now apply Group_eqb_spec. Qed.

Lemma inGroup_other t (g : Group) : g <> groupOf t -> inGroup g t = false.
Proof.
  intros H. unfold inGroup. destruct (Group_eqb (groupOf t) g) eqn:E;
    [|reflexivity].
  apply Group_eqb_spec in E. congruence.
Qed.

Lemma filter_inGroup_nil (l : list (Transaction.t num)) (g : Group) :
  ~ In g (map groupOf l) -> filter (inGroup g) l = [].
Proof.
  induction l as [|x l IH]; [reflexivity|].
  cbn [map filter In]. intros H. destruct (inGroup g x) eqn:E.
  - exfalso. apply H. left. unfold inGroup in E.
    now apply Group_eqb_spec in E.
  - apply IH. intros Hin. apply H. now right.
Qed.

Lemma total_buckets (l : list (Transaction.t num)) :
  total (map (bucketTotal l) (groupsOf l)) = total (amounts l).
Proof.
  induction l as [|t l IH] using rev_ind; [reflexivity|].
  unfold amounts at 1. rewrite map_app. cbn [map]. rewrite total_snoc.
  fold (amounts l). rewrite <- IH.
  unfold groupsOf. rewrite map_app. cbn [map]. rewrite dedupe_snoc.
  fold (groupsOf l).
  destruct (existsb (Group_eqb (groupOf t)) (groupsOf l)) eqn:E.
  - apply (total_map_bump add_assoc add_comm add_0_l) with (k0 := groupOf t).
    + apply (dedupe_NoDup _ Group_eqb_spec).
    + now apply (existsb_eqb_In _ Group_eqb_spec).
    + intros g _ Hne. now rewrite bucketTotal_snoc, inGroup_other.
    + now rewrite bucketTotal_snoc, inGroup_own.
  - rewrite map_app. cbn [map]. rewrite total_snoc.
    apply (existsb_eqb_not_In _ Group_eqb_spec) in E.
    f_equal.
    + f_equal. apply map_ext_in. intros g Hg.
      rewrite bucketTotal_snoc, inGroup_other; [reflexivity|].
      intros ->. contradiction.
    + rewrite bucketTotal_snoc, inGroup_own.
      replace (bucketTotal l (groupOf t)) with (@num_zero num N);
        [apply add_0_l|].
      unfold bucketTotal. rewrite filter_inGroup_nil; [reflexivity|].
      intros Hin. apply E. now apply (dedupe_In _ Group_eqb_spec).
Qed.

Lemma total_filter_sorted (p : Transaction.t num -> bool)
    (l : list (Transaction.t num)) :
  total (amounts (filter p (Array_sort byDateDesc l)))
  = total (amounts (filter p l)).
Proof.
  apply (total_perm add_assoc add_comm add_0_l).
  apply Permutation_map, Permutation_filter, Array_sort_perm.
Qed.


End CategorySums.


Ltac floats_differ :=
  let H := fresh in
  intros H; apply (f_equal Prim2SF) in H; vm_compute in H; discriminate H.


(** ** The monthly and daily aggregations *)

Section BucketFacts.
Context {num : Type} {N : Number num} {host : Host}.
Implicit Type s : State num.
Implicit Type t : Transaction.t num.

Lemma totalsOf_snoc (l : list (Transaction.t num)) t :
  totalsOf (l ++ [t]) = credit (totalsOf l) t.
Proof.
  unfold totalsOf, credit, hasType. rewrite !filter_app. cbn [filter].
  destruct (Transaction.type t); cbn [TransactionType_eqb];
    rewrite app_nil_r; unfold amounts; rewrite map_app; cbn [map];
    now rewrite total_snoc.
Qed.

Lemma monthVal_snoc (l : list (Transaction.t num)) t :
  monthVal (monthName t) (l ++ [t]) = credit (monthVal (monthName t) l) t.
Proof.
  unfold monthVal. rewrite filter_app. cbn [filter]. unfold inMonth at 2.
  rewrite String.eqb_refl. apply totalsOf_snoc.
Qed.

Lemma monthVal_new (l : list (Transaction.t num)) t :
  existsb (String.eqb (monthName t)) (map monthName l) = false ->
  monthVal (monthName t) (l ++ [t]) = monthlyUpdate None t.
Proof.
  intros H. rewrite monthVal_snoc. unfold monthlyUpdate. f_equal.
  unfold monthVal, inMonth. now rewrite (filter_nil_of_absent _ _ _ _ H).
Qed.

Lemma monthVal_old (l : list (Transaction.t num)) t :
  existsb (String.eqb (monthName t)) (map monthName l) = true ->
  monthVal (monthName t) (l ++ [t])
  = monthlyUpdate (Some (monthVal (monthName t) l)) t.
Proof. intros _. apply monthVal_snoc. Qed.

Lemma monthVal_other (l : list (Transaction.t num)) t (label : string) :
  label <> monthName t -> monthVal label (l ++ [t]) = monthVal label l.
Proof.
  intros H. unfold monthVal. rewrite filter_app. cbn [filter].
  unfold inMonth at 2. apply String.eqb_neq in H. rewrite H.
  now rewrite app_nil_r.
Qed.

Lemma monthName_plain t : is_array_index (monthName t) = false.
Proof.
  unfold monthName, monthShortYear.
  destruct (getTime t) as [d|]; [|reflexivity].
  destruct (civil_from_days (localDay d)) as [[y m] _].
  now apply not_array_index.
Qed.

(** C6.  Without a session [monthly()] is empty.  With one, the session's
    transactions are bucketed by month label, the buckets stand in the order
    in which their labels first occur in the ledger, each holds the sum of
    its income amounts and the sum of its expense amounts, and the result is
    the last six buckets of that order. *)
Theorem monthly_last_six_seen s :
  match user s with
  | None => getMonthlyData s = []
  | Some u =>
      let mine := filter (ownedBy (User.id u)) (transactions s) in
      getMonthlyData s
      = lastN 6
          (map (fun label =>
                  let bucket := filter (inMonth label) mine in
                  MonthEntry.mk label
                    (total (amounts (filter (hasType income) bucket)))
                    (total (amounts (filter (hasType expense) bucket))))
               (firstSeen (map monthName mine)))
  end.
Proof.
  unfold getMonthlyData. destruct (user s) as [u|]; [|reflexivity].
  cbv zeta. set (mine := filter (ownedBy (User.id u)) (transactions s)).
  change (fold_left monthlyStep mine [])
    with (fold_left (groupStep monthName monthlyUpdate) mine []).
  rewrite (groupStep_fold monthName monthlyUpdate monthVal
             monthVal_new monthVal_old monthVal_other).
  rewrite Object_entries_tabulate.
  2:{ apply Forall_forall. intros k Hk.
      apply (dedupe_In _ String_eqb_spec), in_map_iff in Hk.
      destruct Hk as (t & <- & _). apply monthName_plain. }
  rewrite Array_slice_from_last6. unfold tabulate. now rewrite map_map.
Qed.

Lemma dayName_known (today : Z) t :
  inLast7Days today t = true ->
  existsb (String.eqb (dayName t)) (lastSevenDays today) = true.
Proof.
  unfold inLast7Days, dayName. destruct (getTime t) as [d|]; [|discriminate].
  intros _. rewrite lastSevenDays_ending. unfold weekdayShort.
  apply daysEnding_complete; apply getDay_range.
Qed.

Lemma lastSevenDays_NoDup (today : Z) : NoDup (lastSevenDays today).
Proof.
  rewrite lastSevenDays_ending. apply daysEnding_NoDup, getDay_range.
Qed.

Lemma seedDays_zero (today : Z) :
  seedDays today = tabulate (fun _ => noTotals) (lastSevenDays today).
Proof.
  rewrite lastSevenDays_ending.
  rewrite <- (seed_tabulate _ _ (getDay_range today)).
  unfold seedDays, daysEnding. cbn [fold_left map].
  now rewrite <- !getDay_daysEarlier.
Qed.

Lemma dailyStep_fold (today : Z) (l : list (Transaction.t num)) :
  fold_left (dailyStep today) l (Some (seedDays today))
  = Some (tabulate (fun label => dayVal today label l) (lastSevenDays today)).
Proof.
  induction l as [|t l IH] using rev_ind.
  - cbn [fold_left]. now rewrite seedDays_zero.
  - rewrite fold_left_app, IH. cbn [fold_left]. unfold dailyStep.
    destruct (inLast7Days today t) eqn:Hin.
    + rewrite Obj_get_tabulate, (dayName_known today t Hin).
      rewrite (Obj_set_tabulate _ _ _ _ (lastSevenDays_NoDup today)).
      rewrite (dayName_known today t Hin). f_equal.
      apply map_ext. intros label. f_equal.
      unfold dayVal. rewrite filter_app. cbn [filter]. rewrite Hin.
      rewrite filter_app. cbn [filter].
      change (onDay label t) with (String.eqb label (dayName t)).
      destruct (String.eqb label (dayName t)) eqn:E.
      * apply String.eqb_eq in E. subst label.
        rewrite totalsOf_snoc. reflexivity.
      * now rewrite app_nil_r.
    + f_equal. apply map_ext. intros label. f_equal.
      unfold dayVal. rewrite filter_app. cbn [filter]. rewrite Hin.
      now rewrite app_nil_r.
Qed.

(** C4.  With an active session [daily()] returns, without throwing, seven
    entries, one per day-of-week label of the seven calendar days that end
    today, oldest first; the buckets are all zero before the transactions
    are folded in, and each entry holds the sums of the session's
    transactions of the last seven days that fall on its label, so zero and
    zero when there are none. *)
Theorem daily_seven_entries s (u : User.t) (today : Z) :
  user s = Some u ->
  let mine := filter (ownedBy (User.id u)) (transactions s) in
  exists entries,
    getDailyData s today = Some entries
    /\ List.length entries = 7%nat
    /\ map DayEntry.day entries = lastSevenDays today
    /\ NoDup (lastSevenDays today)
    /\ seedDays today = tabulate (fun _ => noTotals) (lastSevenDays today)
    /\ entries
       = map (fun label =>
                let bucket :=
                  filter (onDay label) (filter (inLast7Days today) mine) in
                DayEntry.mk label
                  (total (amounts (filter (hasType income) bucket)))
                  (total (amounts (filter (hasType expense) bucket))))
             (lastSevenDays today)
    /\ (filter (inLast7Days today) mine = [] ->
        entries
        = map (fun label => DayEntry.mk label num_zero num_zero)
            (lastSevenDays today)).
Proof.
  intros Hu mine. unfold getDailyData. rewrite Hu. fold mine.
  rewrite dailyStep_fold.
  rewrite Object_entries_tabulate
    by (rewrite lastSevenDays_ending; apply daysEnding_plain, getDay_range).
  eexists. split; [reflexivity|].
  unfold tabulate. rewrite !map_map. cbn [DayEntry.day fst].
  split; [now rewrite length_map, lastSevenDays_ending|].
  split; [apply map_id|].
  split; [apply lastSevenDays_NoDup|].
  split; [apply seedDays_zero|].
  split; [reflexivity|].
  intros Hnone. apply map_ext. intros label.
  unfold dayVal. now rewrite Hnone.
Qed.

End BucketFacts.

Lemma daily_seven_entries_witness :
  exists entries,
    getDailyData testUserSession 1681560000000 = Some entries
    /\ map DayEntry.day entries
       = ["Sun"; "Mon"; "Tue"; "Wed"; "Thu"; "Fri"; "Sat"].
Proof.
  destruct (daily_seven_entries testUserSession testUser 1681560000000 eq_refl)
    as (entries & Hget & _ & Hdays & _).
  exists entries. split; [exact Hget | exact Hdays].
Defined.

(** ** Scenarios *)

(** The sample ledger: user "1" has income 50000 and expenses
    5000 + 10000. *)
Example sample_totals_of_admin :
  totalsOf (getUserTransactions firstStart "1")
  = Totals.mk 50000 15000.
Proof. reflexivity. Qed.

Example sample_totals_of_admin_binary64 :
  totalsOf (getUserTransactions (@freshStart float _) "1")
  = Totals.mk 50000%float 15000%float.
Proof. vm_compute. reflexivity. Qed.

(** A transaction added now is the first of its owner's. *)
Example added_fuel_comes_first :
  hd_error (getUserTransactions fuelAdded "2")
  = Some (Transaction.mk "1700000000000" "2" 2500 expense "Transport" "Fuel"
            "2023-11-14T22:13:20.000Z").
Proof. vm_compute. reflexivity. Qed.

Example recent_default_limit :
  map Transaction.id (getRecentTransactions sameDateTwice None)
  = ["1705320000000"; "1705320001000"; "5"; "4"; "3"].
Proof. vm_compute. reflexivity. Qed.

(** The last six buckets are the last six met: December 2023, met first, is
    dropped although it is the latest month. *)
Example monthly_drops_first_seen :
  map MonthEntry.month (getMonthlyData monthsOutOfOrder)
  = ["Jan 2023"; "Feb 2023"; "Mar 2023"; "Apr 2023"; "May 2023"; "Jun 2023"].
Proof. vm_compute. reflexivity. Qed.

(** On 15 April 2023 at noon UTC the week of the second sample user shows
    the three transactions of 10, 12 and 15 April; at UTC+05:30 the last one,
    made at 20:00 UTC, falls on Sunday the 16th and shares the bucket of
    Sunday the 9th. *)
Example daily_of_test_user :
  getDailyData testUserSession 1681560000000
  = Some [ DayEntry.mk "Sun" 0 0; DayEntry.mk "Mon" 25000 0;
           DayEntry.mk "Tue" 0 0; DayEntry.mk "Wed" 0 2500;
           DayEntry.mk "Thu" 0 0; DayEntry.mk "Fri" 0 0;
           DayEntry.mk "Sat" 0 1800 ].
Proof. vm_compute. reflexivity. Qed.

Example daily_of_test_user_east_of_utc :
  @getDailyData Z _ ist_host testUserSession 1681560000000
  = Some [ DayEntry.mk "Sun" 0 1800; DayEntry.mk "Mon" 25000 0;
           DayEntry.mk "Tue" 0 0; DayEntry.mk "Wed" 0 2500;
           DayEntry.mk "Thu" 0 0; DayEntry.mk "Fri" 0 0;
           DayEntry.mk "Sat" 0 0 ].
Proof. vm_compute. reflexivity. Qed.

Example category_of_test_user :
  getCategoryData testUserSession
  = [ CategoryEntry.mk "Freelance" 25000 income;
      CategoryEntry.mk "Transport" 2500 expense;
      CategoryEntry.mk "Entertainment" 1800 expense ].
Proof. vm_compute. reflexivity. Qed.

(** A session survives a restart through its persisted entry and is gone
    after [logout]. *)
Example session_restored :
  user (restore (initialState (localStorage_user testUserSession)
                   (localStorage_transactions testUserSession)))
  = Some testUser.
Proof. reflexivity. Qed.

Example logout_clears :
  user (logout testUserSession) = None
  /\ localStorage_user (logout testUserSession) = None.
Proof. split; reflexivity. Qed.

Example add_without_session :
  transactions (addTransaction (logout testUserSession) 1700000000000 fuel)
  = transactions testUserSession.
Proof. reflexivity. Qed.

(** * Further properties of the code *)

(** ** Identifiers *)

Lemma Z_to_int_proper (z : Z) :
  Z.to_int z <> Decimal.Pos Decimal.Nil
  /\ Z.to_int z <> Decimal.Neg Decimal.Nil.
Proof.
  destruct z as [|p|p]; cbn; split; try discriminate;
    intros [= H]; exact (DecimalPos.Unsigned.to_uint_nonnil p H).
Qed.

(** The decimal string of an integer determines the integer. *)
Lemma Z_toString_inj (a b : Z) : Z_toString a = Z_toString b -> a = b.
Proof.
  unfold Z_toString. intros H. apply DecimalZ.to_int_inj.
  destruct (Z_to_int_proper a) as [Ha1 Ha2].
  destruct (Z_to_int_proper b) as [Hb1 Hb2].
  pose proof (NilZero.isi _ Ha1 Ha2) as Ea.
  pose proof (NilZero.isi _ Hb1 Hb2) as Eb.
  rewrite H in Ea. congruence.
Qed.

Lemma NoDup_map_injective {A B : Type} (f : A -> B) (l : list A) :
  (forall x y, f x = f y -> x = y) -> NoDup l -> NoDup (map f l).
Proof.
  intros Hf. induction 1 as [|x l Hx _ IH]; cbn [map]; constructor;
    [|assumption].
  intros Hin. apply in_map_iff in Hin. destruct Hin as (y & Hy & Hin).
  apply Hf in Hy. now subst.
Qed.

Lemma idsUpTo_NoDup (n : nat) : NoDup (idsUpTo n).
Proof.
  apply NoDup_map_injective; [|apply seq_NoDup].
  intros x y H. apply Z_toString_inj in H. lia.
Qed.

Lemma NoDup_snoc {A : Type} (l : list A) (x : A) :
  NoDup l -> ~ In x l -> NoDup (l ++ [x]).
Proof.
  intros Hl Hx. apply NoDup_app; [assumption | repeat constructor; auto |].
  intros a Ha [<-|[]]. contradiction.
Qed.

Lemma find_app_skip {A : Type} (p : A -> bool) (l r : list A) :
  (forall a, In a l -> p a = false) -> find p (l ++ r) = find p r.
Proof.
  induction l as [|x l IH]; intros H; [reflexivity|].
  cbn [app find]. rewrite (H x (or_introl eq_refl)).
  apply IH. intros a Ha. apply H. now right.
Qed.

Lemma existsb_email_absent (l : list Account.t) (email : string) :
  existsb (fun u => String.eqb (Account.email u) email) l = false ->
  ~ In email (map Account.email l).
Proof.
  intros H Hin. apply in_map_iff in Hin. destruct Hin as (a & <- & Hin).
  assert (E : existsb (fun u => String.eqb (Account.email u) (Account.email a))
                l = true).
  { apply existsb_exists. exists a. split; [assumption|].
    apply String.eqb_refl. }
  congruence.
Qed.

Lemma same_email_same_account (l : list Account.t) (a b : Account.t) :
  NoDup (map Account.email l) -> In a l -> In b l ->
  Account.email a = Account.email b -> a = b.
Proof.
  induction l as [|c l IH]; intros Hnd Ha Hb He; [destruct Ha|].
  cbn [map] in Hnd. inversion Hnd as [|? ? Hc Hl]; subst.
  destruct Ha as [->|Ha], Hb as [->|Hb]; try reflexivity.
  - exfalso. apply Hc. rewrite He. now apply in_map.
  - exfalso. apply Hc. rewrite <- He. now apply in_map.
  - now apply IH.
Qed.

(** ** What every operation keeps *)

Section ApplicationFacts.
Context {num : Type} {N : Number num}.
Implicit Type s : State num.

Lemma run_invariant (P : State num -> Prop) :
  (forall s op, P s -> P (perform s op)) ->
  forall ops s, P s -> P (run ops s).
Proof.
  intros Hstep ops. unfold run.
  induction ops as [|op ops IH]; intros s Hs; cbn [fold_left];
    [assumption|].
  apply IH, Hstep, Hs.
Qed.

Ltac operation_cases s op :=
  destruct op as [|email password|name email password| |now transaction];
  cbn [perform];
  [ idtac
  | unfold login_resolve; destruct (find _ (MOCK_USERS s)) eqn:?
  | unfold register_resolve; destruct (existsb _ (MOCK_USERS s)) eqn:?
  | unfold logout
  | unfold addTransaction; destruct (user s) eqn:? ].

(** How an operation changes the registry, the ledger and the session. *)
Lemma perform_registry s (op : Operation num) :
  MOCK_USERS (perform s op) = MOCK_USERS s
  \/ exists name email password,
       op = RegisterResolve name email password
       /\ existsb (fun u => String.eqb (Account.email u) email) (MOCK_USERS s)
          = false
       /\ MOCK_USERS (perform s op)
          = MOCK_USERS s
            ++ [Account.mk
                  (Z_toString (Z.of_nat (List.length (MOCK_USERS s)) + 1))
                  name email password false].
Proof.
  operation_cases s op; cbn; try (now left);
    right; exists name, email, password; repeat split; assumption.
Qed.

Lemma perform_persisted s (op : Operation num) :
  user s = localStorage_user s ->
  localStorage_transactions s = Some (transactions s) ->
  user (perform s op) = localStorage_user (perform s op)
  /\ localStorage_transactions (perform s op)
     = Some (transactions (perform s op)).
Proof.
  intros Hu Ht. operation_cases s op; cbn; split; congruence.
Qed.

(** The two mount effects touch different parts of the state: their order
    does not matter. *)
Lemma mount_effects_commute s :
  loadTransactions (restore s) = restore (loadTransactions s).
Proof.
  unfold loadTransactions, restore.
  destruct (localStorage_user s) eqn:Eu,
    (localStorage_transactions s) eqn:Et;
    cbn; rewrite ?Eu, ?Et; reflexivity.
Qed.

Lemma started_persisted (stored_user : option User.t)
    (stored_transactions : option (list (Transaction.t num))) :
  let s := started stored_user stored_transactions in
  user s = localStorage_user s
  /\ localStorage_transactions s = Some (transactions s)
  /\ MOCK_USERS s = INITIAL_MOCK_USERS.
Proof.
  unfold started, loadTransactions, restore, initialState. cbn.
  destruct stored_user, stored_transactions; repeat split.
Qed.

Lemma run_persisted (stored_user : option User.t)
    (stored_transactions : option (list (Transaction.t num)))
    (ops : list (Operation num)) :
  let s := run ops (started stored_user stored_transactions) in
  user s = localStorage_user s
  /\ localStorage_transactions s = Some (transactions s).
Proof.
  cbv zeta.
  apply (run_invariant (fun s =>
    user s = localStorage_user s
    /\ localStorage_transactions s = Some (transactions s))).
  - intros s op [Hu Ht]. now apply perform_persisted.
  - destruct (started_persisted stored_user stored_transactions)
      as (Hu & Ht & _). now split.
Qed.

Lemma run_registry_grows (ops : list (Operation num)) s :
  exists added, MOCK_USERS (run ops s) = MOCK_USERS s ++ added.
Proof.
  apply (run_invariant (fun s' =>
    exists added, MOCK_USERS s' = MOCK_USERS s ++ added)).
  - intros s' op (added & Ha).
    destruct (perform_registry s' op) as [E|(n & e & p & _ & _ & E)];
      rewrite E, Ha.
    + now exists added.
    + eexists. now rewrite <- app_assoc.
  - exists []. now rewrite app_nil_r.
Qed.

Lemma perform_emails_distinct s (op : Operation num) :
  NoDup (map Account.email (MOCK_USERS s)) ->
  NoDup (map Account.email (MOCK_USERS (perform s op))).
Proof.
  intros Hs.
  destruct (perform_registry s op) as [E|(n & e & p & _ & Habsent & E)];
    rewrite E; [exact Hs|].
  rewrite map_app. cbn [map Account.email].
  apply NoDup_snoc; [exact Hs | now apply existsb_email_absent].
Qed.

Lemma initial_emails_distinct :
  NoDup (map Account.email INITIAL_MOCK_USERS).
Proof. cbn. repeat constructor; cbn; intuition discriminate. Qed.

Lemma run_emails_distinct (stored_user : option User.t)
    (stored_transactions : option (list (Transaction.t num)))
    (ops : list (Operation num)) :
  NoDup (map Account.email
           (MOCK_USERS (run ops (started stored_user stored_transactions)))).
Proof.
  apply (run_invariant (fun s => NoDup (map Account.email (MOCK_USERS s)))).
  - intros s op. apply perform_emails_distinct.
  - destruct (started_persisted stored_user stored_transactions)
      as (_ & _ & ->). apply initial_emails_distinct.
Qed.

(** X1.  In every state reached after the mount effects, by any sequence
    of operations and from whatever [localStorage] held, the session in
    memory is the persisted session entry: both set to the same value or
    both absent. *)
Theorem session_is_persisted (stored_user : option User.t)
    (stored_transactions : option (list (Transaction.t num)))
    (ops : list (Operation num)) :
  let s := run ops (started stored_user stored_transactions) in
  user s = localStorage_user s.
Proof.
  cbv zeta. apply run_invariant.
  - intros s op Hs. operation_cases s op; cbn; congruence.
  - unfold started, loadTransactions, restore, initialState. cbn.
    destruct stored_user, stored_transactions; reflexivity.
Qed.


(** X3.  After a start, whatever is done, no two accounts of the registry
    have the same email: [register] is the only writer and it refuses an
    email that is present. *)
Theorem registry_emails_distinct (stored_user : option User.t)
    (stored_transactions : option (list (Transaction.t num)))
    (ops : list (Operation num)) :
  let s := run ops (started stored_user stored_transactions) in
  NoDup (map Account.email (MOCK_USERS s)).
Proof.
  cbv zeta. apply run_invariant.
  - intros s op Hs. operation_cases s op; cbn; try exact Hs.
    rewrite map_app. cbn [map Account.email].
    apply NoDup_snoc; [exact Hs | now apply existsb_email_absent].
  - unfold started, loadTransactions, restore, initialState. cbn.
    destruct stored_user, stored_transactions;
      exact initial_emails_distinct.
Qed.

(** X4.  After a start, whatever is done, the ids of the accounts are the
    decimal strings of 1, 2, ... in the order of registration, so no two
    accounts share an id and no two users' transactions are confused within
    one run of the application. *)
Theorem registry_ids_distinct (stored_user : option User.t)
    (stored_transactions : option (list (Transaction.t num)))
    (ops : list (Operation num)) :
  let s := run ops (started stored_user stored_transactions) in
  map Account.id (MOCK_USERS s) = idsUpTo (List.length (MOCK_USERS s))
  /\ NoDup (map Account.id (MOCK_USERS s)).
Proof.
  cbv zeta.
  set (s := run ops (started stored_user stored_transactions)).
  assert (H : map Account.id (MOCK_USERS s)
              = idsUpTo (List.length (MOCK_USERS s))).
  { subst s.
    apply (run_invariant (fun s =>
      map Account.id (MOCK_USERS s) = idsUpTo (List.length (MOCK_USERS s)))).
    - intros s op Hs.
      destruct (perform_registry s op) as [E|(n & e & p & _ & _ & E)];
        rewrite E; [exact Hs|].
      rewrite map_app, Hs, last_length. unfold idsUpTo.
      rewrite seq_S, map_app. cbn [map Account.id]. do 3 f_equal. lia.
    - destruct (started_persisted stored_user stored_transactions)
        as (_ & _ & ->). reflexivity. }
  split; [exact H|]. rewrite H. apply idsUpTo_NoDup.
Qed.

(** X5.  No operation removes or alters a transaction or an account: after
    any sequence of operations the ledger and the registry are what they
    were, followed by what was added. *)
Theorem ledger_and_registry_only_grow (ops : list (Operation num)) s :
  exists addedTransactions addedAccounts,
    transactions (run ops s) = transactions s ++ addedTransactions
    /\ MOCK_USERS (run ops s) = MOCK_USERS s ++ addedAccounts.
Proof.
  apply (run_invariant (fun s' =>
    exists addedTransactions addedAccounts,
      transactions s' = transactions s ++ addedTransactions
      /\ MOCK_USERS s' = MOCK_USERS s ++ addedAccounts)).
  - intros s' op (ts & accs & Ht & Ha).
    operation_cases s' op; cbn;
      try (exists ts, accs; now split).
    + eexists ts, _. split; [exact Ht|].
      rewrite Ha, <- app_assoc. reflexivity.
    + eexists _, accs. split; [|exact Ha].
      rewrite Ht, <- app_assoc. reflexivity.
  - exists [], []. now rewrite !app_nil_r.
Qed.

(** X6.  Registration and login round trip: once [register] has created an
    account, [login] with the same email and secret succeeds, whatever has
    been done in between, and sets and persists the session of that account:
    the id it was given, its name and email, and no admin right. *)
Theorem register_then_login s (name email password : string)
    (ops : list (Operation num)) :
  (forall a, In a (MOCK_USERS s) -> Account.email a <> email) ->
  let later := run ops (fst (register_resolve s name email password)) in
  let session :=
    User.mk (Z_toString (Z.of_nat (List.length (MOCK_USERS s)) + 1))
      name email false in
  snd (login later email password) = true
  /\ user (fst (login later email password)) = Some session
  /\ localStorage_user (fst (login later email password)) = Some session.
Proof.
  intros Hnew later session.
  destruct (run_registry_grows ops
              (fst (register_resolve s name email password)))
    as (more & Hreg).
  fold later in Hreg.
  assert (E : existsb (fun u => String.eqb (Account.email u) email)
                (MOCK_USERS s) = false).
  { destruct (existsb _ (MOCK_USERS s)) eqn:E; [|reflexivity].
    apply existsb_exists in E. destruct E as (a & Hin & He).
    apply String.eqb_eq in He. destruct (Hnew a Hin He). }
  unfold register_resolve in Hreg. rewrite E in Hreg. cbn in Hreg.
  unfold login, login_resolve. cbn [MOCK_USERS setIsLoading].
  rewrite Hreg, <- app_assoc, find_app_skip.
  - cbn [app find Account.email Account.password].
    rewrite !String.eqb_refl. cbn. repeat split.
  - intros a Hin. apply andb_false_iff. left.
    apply String.eqb_neq. now apply Hnew.
Qed.

Lemma reload_state (stored_user : option User.t)
    (stored_transactions : option (list (Transaction.t num)))
    (ops : list (Operation num)) :
  let s := run ops (started stored_user stored_transactions) in
  user (reload s) = user s
  /\ transactions (reload s) = transactions s
  /\ MOCK_USERS (reload s) = INITIAL_MOCK_USERS.
Proof.
  cbv zeta.
  set (s := run ops (started stored_user stored_transactions)).
  destruct (run_persisted stored_user stored_transactions ops) as [Hu Ht].
  fold s in Hu, Ht.
  unfold reload, started, loadTransactions, restore, initialState.
  rewrite Ht, Hu.
  destruct (localStorage_user s); repeat split.
Qed.


(** X21.  After a start, whatever has been done, [login] succeeds exactly
    when the registry has an account with this email and this secret, and
    the session it sets is that account without its secret. *)
Theorem login_succeeds_iff_credentials (stored_user : option User.t)
    (stored_transactions : option (list (Transaction.t num)))
    (ops : list (Operation num)) (email password : string) :
  let s := run ops (started stored_user stored_transactions) in
  (snd (login s email password) = true
   <-> exists a, In a (MOCK_USERS s)
                 /\ Account.email a = email /\ Account.password a = password)
  /\ forall a, In a (MOCK_USERS s) ->
       Account.email a = email -> Account.password a = password ->
       user (fst (login s email password)) = Some (withoutPassword a)
       /\ localStorage_user (fst (login s email password))
          = Some (withoutPassword a).
Proof.
  cbv zeta.
  set (s := run ops (started stored_user stored_transactions)).
  pose proof (run_emails_distinct stored_user stored_transactions ops) as Hnd.
  fold s in Hnd.
  set (matches := fun u : Account.t =>
         String.eqb (Account.email u) email
         && String.eqb (Account.password u) password).
  assert (Hfound : forall a, In a (MOCK_USERS s) ->
            Account.email a = email -> Account.password a = password ->
            find matches (MOCK_USERS s) = Some a).
  { intros a Hin He Hp.
    destruct (find matches (MOCK_USERS s)) as [b|] eqn:E.
    - apply find_some in E. destruct E as [Hb Hm].
      apply andb_true_iff in Hm. destruct Hm as [Hbe _].
      apply String.eqb_eq in Hbe.
      f_equal. apply (same_email_same_account (MOCK_USERS s)); try assumption.
      congruence.
    - exfalso. eapply find_none in E; [|exact Hin].
      unfold matches in E. subst.
      now rewrite !String.eqb_refl in E. }
  unfold login, login_resolve. cbn [MOCK_USERS setIsLoading].
  fold matches. split.
  - split.
    + destruct (find matches (MOCK_USERS s)) as [a|] eqn:E;
        [intros _|discriminate].
      apply find_some in E. destruct E as [Hin Hm].
      apply andb_true_iff in Hm. rewrite !String.eqb_eq in Hm.
      exists a. tauto.
    + intros (a & Hin & He & Hp). now rewrite (Hfound a Hin He Hp).
  - intros a Hin He Hp. rewrite (Hfound a Hin He Hp). split; reflexivity.
Qed.

(** X22.  From a first start, with nothing persisted, whatever is done,
    the session is always an account of the registry without its secret,
    and every transaction of the ledger is owned by an account of the
    registry. *)
Theorem first_run_owners_are_accounts (ops : list (Operation num)) :
  ownersRegistered (run ops (started None None)).
Proof.
  apply run_invariant.
  - intros s op [Hsession Howners].
    assert (Hgrow : forall x, In x (map Account.id (MOCK_USERS s)) ->
              In x (map Account.id (MOCK_USERS (perform s op)))).
    { intros x Hx.
      destruct (perform_registry s op) as [E|(n & e & p & _ & _ & E)];
        rewrite E; [assumption|].
      rewrite map_app. apply in_or_app. now left. }
    split.
    + intros u' Hu'.
      destruct op as [|email password|name email password| |now transaction];
        cbn [perform] in *.
      * now apply Hsession.
      * unfold login_resolve in *.
        destruct (find _ (MOCK_USERS s)) as [a|] eqn:E; cbn in Hu' |- *;
          [|now apply Hsession].
        injection Hu' as <-. apply find_some in E.
        exists a. split; [apply E | reflexivity].
      * unfold register_resolve in *.
        destruct (existsb _ (MOCK_USERS s)) eqn:E; cbn in Hu' |- *;
          [now apply Hsession|].
        injection Hu' as <-. eexists. split; [|reflexivity].
        apply in_or_app. right. now left.
      * discriminate Hu'.
      * unfold addTransaction in *.
        destruct (user s) as [u|] eqn:Hu; cbn in Hu' |- *.
        -- apply Hsession. congruence.
        -- rewrite Hu in Hu'. discriminate Hu'.
    + assert (Hold : Forall (fun t => In (Transaction.userId t)
                                (map Account.id (MOCK_USERS (perform s op))))
                       (transactions s))
        by (eapply Forall_impl; [|exact Howners]; intros t; apply Hgrow).
      destruct op as [|email password|name email password| |now transaction].
      * exact Hold.
      * cbn [perform] in *. unfold login_resolve in *.
        destruct (find _ (MOCK_USERS s)); exact Hold.
      * cbn [perform] in *. unfold register_resolve in *.
        destruct (existsb _ (MOCK_USERS s)); exact Hold.
      * exact Hold.
      * cbn [perform] in *. unfold addTransaction in *.
        destruct (user s) as [u|] eqn:Hu; cbn in Hold |- *; [|exact Hold].
        apply Forall_app. split; [exact Hold|].
        constructor; [|constructor].
        cbn [newTransaction Transaction.userId].
        destruct (Hsession u eq_refl) as (a & Hin & <-).
        cbn [withoutPassword User.id]. now apply in_map.
  - split; [intros u' Hu'; discriminate Hu'|].
    unfold started, loadTransactions, restore, initialState.
    cbn [localStorage_transactions localStorage_user setIsLoading
         setTransactions storeTransactions transactions MOCK_USERS
         SAMPLE_TRANSACTIONS INITIAL_MOCK_USERS map Account.id].
    repeat (apply Forall_cons; [cbn; auto|]). apply Forall_nil.
Qed.

End ApplicationFacts.

Section ReloadFacts.
Context {num : Type} {N : Number num} {host : Host}.

(** X20.  [logout] always ends the session for good: the session and its
    persisted entry are gone, a reload does not bring the session back, the
    session's lists and summaries are empty and an [add] is refused, while
    the ledger, its persisted copy and the registry are untouched. *)
Theorem logout_is_final (s : State num) (now today : Z)
    (limit : option Z) (tx : NewTransaction.t num) :
  user (logout s) = None
  /\ localStorage_user (logout s) = None
  /\ user (reload (logout s)) = None
  /\ transactions (logout s) = transactions s
  /\ localStorage_transactions (logout s) = localStorage_transactions s
  /\ MOCK_USERS (logout s) = MOCK_USERS s
  /\ transactions (addTransaction (logout s) now tx) = transactions s
  /\ getRecentTransactions (logout s) limit = []
  /\ getMonthlyData (logout s) = []
  /\ getDailyData (logout s) today = Some []
  /\ getCategoryData (logout s) = []
  /\ getAllTransactions (logout s) = getAllTransactions s.
Proof.
  unfold reload, started, loadTransactions, restore, initialState, logout.
  cbn. destruct (localStorage_transactions s), limit; repeat split.
Qed.

(** X23.  Ids are reused across reloads: the first account registered
    after a reload gets the id "3" whatever was registered before, and with
    it every transaction that the ledger holds under that id. *)
Theorem registration_after_reload_reuses_id (stored_user : option User.t)
    (stored_transactions : option (list (Transaction.t num)))
    (ops : list (Operation num)) (name email password : string) :
  email <> "admin@example.com" -> email <> "user@example.com" ->
  let s := run ops (started stored_user stored_transactions) in
  let s' := fst (register (reload s) name email password) in
  user s' = Some (User.mk "3" name email false)
  /\ getUserTransactions s' "3" = getUserTransactions s "3".
Proof.
  intros H1 H2. cbv zeta.
  destruct (reload_state stored_user stored_transactions ops)
    as (_ & Ht & Hreg).
  unfold register, register_resolve, getUserTransactions.
  cbn [MOCK_USERS setIsLoading]. rewrite Hreg.
  apply String.eqb_neq in H1, H2.
  cbn [existsb INITIAL_MOCK_USERS Account.email orb].
  rewrite (String.eqb_sym "admin@example.com"), H1.
  rewrite (String.eqb_sym "user@example.com"), H2.
  cbn. rewrite Ht. split; reflexivity.
Qed.

End ReloadFacts.

Lemma register_then_login_witness :
  user (fst (login
               (run [Logout]
                  (fst (register_resolve firstStart "Eve" "eve@example.com"
                          "pw")))
               "eve@example.com" "pw"))
  = Some (User.mk "3" "Eve" "eve@example.com" false).
Proof.
  refine (proj1 (proj2
    (register_then_login firstStart "Eve" "eve@example.com" "pw" [Logout]
       _))).
  intros a Hin He. vm_compute in Hin.
  destruct Hin as [<-|[<-|[]]]; discriminate He.
Defined.

Lemma registration_after_reload_reuses_id_witness :
  getUserTransactions
    (fst (register
            (reload
               (run [RegisterResolve "Eve" "eve@example.com" "pw";
                     AddTransaction 1700000000000 fuel; Logout]
                  (started None None)))
            "Mallory" "mallory@example.com" "pw"))
    "3"
  = getUserTransactions
      (run [RegisterResolve "Eve" "eve@example.com" "pw";
            AddTransaction 1700000000000 fuel; Logout]
         (started None None))
      "3".
Proof.
  exact (proj2
    (registration_after_reload_reuses_id None None
       [RegisterResolve "Eve" "eve@example.com" "pw";
        AddTransaction 1700000000000 fuel; Logout]
       "Mallory" "mallory@example.com" "pw"
       ltac:(discriminate) ltac:(discriminate))).
Defined.

(** Eve's transaction is Mallory's after a reload. *)
Example second_third_account_sees_the_first :
  map Transaction.description
    (getUserTransactions
       (fst (register
               (reload
                  (run [RegisterResolve "Eve" "eve@example.com" "pw";
                        AddTransaction 1700000000000 fuel; Logout]
                     (started None None)))
               "Mallory" "mallory@example.com" "pw"))
       "3")
  = ["Fuel"].
Proof. vm_compute. reflexivity. Qed.

(** ** Reading the ledger *)

Lemma StronglySorted_filter {A : Type} (R : A -> A -> Prop) (p : A -> bool)
    (l : list A) :
  StronglySorted R l -> StronglySorted R (filter p l).
Proof.
  induction 1 as [|x l _ IH Hx]; cbn [filter]; [constructor|].
  destruct (p x); [|assumption].
  constructor; [assumption|].
  rewrite Forall_forall in *. intros y Hy. apply filter_In in Hy.
  apply Hx, Hy.
Qed.

Lemma filter_comm {A : Type} (p q : A -> bool) (l : list A) :
  filter p (filter q l) = filter q (filter p l).
Proof.
  induction l as [|x l IH]; [reflexivity|].
  cbn [filter]. destruct (p x) eqn:Hp, (q x) eqn:Hq; cbn [filter];
    rewrite ?Hp, ?Hq, IH; reflexivity.
Qed.

(** Appending an element that every other one comes after puts it first. *)
Lemma Array_sort_snoc_first {A : Type} (compareFn : A -> A -> option Z)
    (l : list A) (x : A) :
  (forall y, In y l -> comes_after compareFn y x = true) ->
  Array_sort compareFn (l ++ [x]) = x :: Array_sort compareFn l.
Proof.
  induction l as [|a l IH]; intros H; [reflexivity|].
  cbn [app Array_sort]. rewrite IH by (intros y Hy; apply H; now right).
  cbn [sort_insert]. now rewrite (H a (or_introl eq_refl)).
Qed.

Section ReadFacts.
Context {num : Type} {N : Number num} {host : Host}.
Implicit Type s : State num.
Implicit Type t : Transaction.t num.

Lemma Array_sort_same_time (l : list (Transaction.t num)) (d : Z) :
  filter (fun t => timeOf t =? d) (Array_sort byDateDesc l)
  = filter (fun t => timeOf t =? d) l.
Proof.
  apply Array_sort_filter. intros x y Hxy Hx Hy.
  destruct (comes_after_byDateDesc _ _ Hxy) as (ta & tb & Ea & Eb & Hlt).
  unfold timeOf in Hx, Hy. rewrite Ea in Hx. rewrite Eb in Hy.
  apply Z.eqb_eq in Hx, Hy. lia.
Qed.

Lemma Array_sort_valid_sorted (l : list (Transaction.t num)) :
  Forall (fun t => getTime t <> None) l ->
  StronglySorted (descending timeOf) (Array_sort byDateDesc l).
Proof.
  intros Hvalid. apply Array_sort_sorted. intros a b Ha Hb.
  rewrite Forall_forall in Hvalid. apply comes_after_valid; auto.
Qed.

(** X8.  When the dates of the ledger are valid, [forOwner(ownerId)] is
    [all()] restricted to the transactions of [ownerId], in the same order:
    filtering before sorting, as the code does, and after give the same
    list. *)
Theorem forOwner_is_all_filtered s (ownerId : string) :
  Forall (fun t => getTime t <> None) (transactions s) ->
  getUserTransactions s ownerId
  = filter (ownedBy ownerId) (getAllTransactions s).
Proof.
  intros Hvalid. unfold getUserTransactions, getAllTransactions.
  apply (sorted_stable_unique timeOf).
  - apply Array_sort_valid_sorted.
    rewrite Forall_forall in *. intros t Ht. apply filter_In in Ht.
    apply Hvalid, Ht.
  - apply StronglySorted_filter, Array_sort_valid_sorted, Hvalid.
  - intros d. rewrite Array_sort_same_time.
    rewrite (filter_comm _ (ownedBy ownerId) (Array_sort _ _)).
    rewrite Array_sort_same_time. apply filter_comm.
Qed.

(** X9.  With a session and a limit that is not negative, [recent] has
    exactly as many items as the limit allows: the limit, or all the
    transactions of the session when there are fewer. *)
Theorem recent_size s (u : User.t) (n : Z) :
  user s = Some u ->
  0 <= n ->
  Z.of_nat (List.length (getRecentTransactions s (Some n)))
  = Z.min n
      (Z.of_nat (List.length (filter (ownedBy (User.id u)) (transactions s)))).
Proof.
  intros Hu Hn. unfold getRecentTransactions. rewrite Hu.
  rewrite Array_slice_0, length_firstn, Array_sort_length.
  unfold relative_index. destruct (n <? 0) eqn:E; lia.
Qed.

(** X10.  A transaction added with a date later than the dates of all the
    session's transactions is the first of [forOwner] for the session, in
    front of the previous list. *)
Theorem added_latest_comes_first s (u : User.t) (now : Z)
    (tx : NewTransaction.t num) (d : Z) :
  user s = Some u ->
  getTime (newTransaction u now tx) = Some d ->
  (forall t, In t (transactions s) -> Transaction.userId t = User.id u ->
             exists dt, getTime t = Some dt /\ dt < d) ->
  getUserTransactions (addTransaction s now tx) (User.id u)
  = newTransaction u now tx :: getUserTransactions s (User.id u).
Proof.
  intros Hu Hd Hearlier. unfold getUserTransactions.
  rewrite (add_transactions s u now tx Hu), filter_app. cbn [filter].
  unfold ownedBy at 2. cbn [newTransaction Transaction.userId].
  rewrite String.eqb_refl.
  apply Array_sort_snoc_first. intros y Hy. apply filter_In in Hy.
  destruct Hy as [Hin Hown]. apply String.eqb_eq in Hown.
  destruct (Hearlier y Hin Hown) as (dt & Edt & Hlt).
  unfold comes_after, byDateDesc. rewrite Hd, Edt. apply Z.ltb_lt. lia.
Qed.

(** X11.  What one user adds never shows in what another user reads: the
    other's [forOwner], and the other's month, day and category summaries
    once that user is the session, are what they were before. *)
Theorem add_is_invisible_to_others s (u v : User.t) (now today : Z)
    (tx : NewTransaction.t num) :
  user s = Some u ->
  User.id v <> User.id u ->
  let s' := addTransaction s now tx in
  getUserTransactions s' (User.id v) = getUserTransactions s (User.id v)
  /\ getRecentTransactions (setUser s' (Some v)) None
     = getRecentTransactions (setUser s (Some v)) None
  /\ getMonthlyData (setUser s' (Some v)) = getMonthlyData (setUser s (Some v))
  /\ getDailyData (setUser s' (Some v)) today
     = getDailyData (setUser s (Some v)) today
  /\ getCategoryData (setUser s' (Some v))
     = getCategoryData (setUser s (Some v)).
Proof.
  intros Hu Hv s'.
  assert (E : filter (ownedBy (User.id v)) (transactions s')
              = filter (ownedBy (User.id v)) (transactions s)).
  { subst s'. rewrite (add_transactions s u now tx Hu), filter_app.
    cbn [filter]. unfold ownedBy at 2.
    cbn [newTransaction Transaction.userId].
    replace (String.eqb (User.id u) (User.id v)) with false
      by (symmetry; apply String.eqb_neq; congruence).
    apply app_nil_r. }
  unfold getUserTransactions, getRecentTransactions, getMonthlyData,
    getDailyData, getCategoryData.
  cbn [setUser user transactions]. rewrite E. repeat split.
Qed.

End ReadFacts.

Lemma forOwner_is_all_filtered_witness :
  getUserTransactions sameDateTwice "2"
  = filter (ownedBy "2") (getAllTransactions sameDateTwice).
Proof.
  apply forOwner_is_all_filtered.
  let l := eval vm_compute in (transactions sameDateTwice) in
  change (transactions sameDateTwice) with l.
  repeat (apply Forall_cons; [vm_compute; discriminate|]). apply Forall_nil.
Defined.

Lemma recent_size_witness :
  Z.of_nat (List.length (getRecentTransactions testUserSession (Some 2))) = 2.
Proof.
  exact (recent_size testUserSession testUser 2 eq_refl
           ltac:(vm_compute; discriminate)).
Defined.

Lemma added_latest_comes_first_witness :
  getUserTransactions fuelAdded "2"
  = newTransaction testUser 1700000000000 fuel
    :: getUserTransactions testUserSession "2".
Proof.
  apply (added_latest_comes_first testUserSession testUser 1700000000000 fuel
           1700000000000 eq_refl); [vm_compute; reflexivity|].
  intros t Hin Hown. vm_compute in Hin.
  repeat (destruct Hin as [<-|Hin];
          [first [ discriminate Hown
                 | eexists; split; [vm_compute; reflexivity | reflexivity] ]|]).
  destruct Hin.
Defined.

Lemma add_is_invisible_to_others_witness :
  getUserTransactions fuelAdded "1" = getUserTransactions testUserSession "1".
Proof.
  exact (proj1
    (add_is_invisible_to_others testUserSession testUser
       (User.mk "1" "Admin User" "admin@example.com" true)
       1700000000000 0 fuel eq_refl ltac:(discriminate))).
Defined.

(** The sums of the admin dashboard do not depend on the order of [all()]
    when addition is exact. *)
Section AdminFacts.
Context {num : Type} {N : Number num} {host : Host}.
Implicit Type s : State num.

Hypothesis add_assoc :
  forall a b c : num, num_add a (num_add b c) = num_add (num_add a b) c.
Hypothesis add_comm : forall a b : num, num_add a b = num_add b a.
Hypothesis add_0_l : forall a : num, num_add num_zero a = a.

Lemma reduce_amounts (l : list (Transaction.t num)) :
  fold_left (fun sum t => num_add sum (Transaction.amount t)) l num_zero
  = total (amounts l).
Proof.
  unfold total, amounts. generalize (@num_zero num N).
  induction l as [|t l IH]; intros a; [reflexivity|]. cbn. apply IH.
Qed.

Lemma admin_total (ty : TransactionType) s :
  total (amounts (filter (hasType ty) (getAllTransactions s)))
  = total (amounts (filter (hasType ty) (transactions s))).
Proof.
  apply (total_perm add_assoc add_comm add_0_l).
  apply Permutation_map, Permutation_filter, Array_sort_perm.
Qed.


End AdminFacts.


(** ** Transaction identifiers *)

Lemma StronglySorted_lt_snoc (l : list Z) (x : Z) :
  StronglySorted Z.lt l -> Forall (fun y => y < x) l ->
  StronglySorted Z.lt (l ++ [x]).
Proof.
  induction 1 as [|a l _ IH Ha]; intros Hx; cbn [app].
  - repeat constructor.
  - inversion Hx as [|? ? Hax Hlx]; subst. constructor; [now apply IH|].
    apply Forall_app. split; [assumption | now repeat constructor].
Qed.

Lemma StronglySorted_lt_NoDup (l : list Z) :
  StronglySorted Z.lt l -> NoDup l.
Proof.
  induction 1 as [|a l _ IH Ha]; constructor; [|assumption].
  intros Hin. rewrite Forall_forall in Ha. specialize (Ha a Hin). lia.
Qed.

Section IdFacts.
Context {num : Type} {N : Number num}.
Implicit Type s : State num.

Lemma perform_transactions s (op : Operation num) :
  transactions (perform s op)
  = match op, user s with
    | AddTransaction now tx, Some u =>
        transactions s ++ [newTransaction u now tx]
    | _, _ => transactions s
    end.
Proof.
  destruct op as [|email password|name email password| |now tx];
    cbn [perform].
  - now destruct (user s).
  - unfold login_resolve. destruct (find _ (MOCK_USERS s)), (user s);
      reflexivity.
  - unfold register_resolve.
    destruct (existsb _ (MOCK_USERS s)), (user s); reflexivity.
  - now destruct (user s).
  - unfold addTransaction. destruct (user s); reflexivity.
Qed.

(** X13.  Identifiers stay pairwise distinct as long as the clock moves
    on: when the ids of the ledger are the decimal strings of increasing
    integers up to [last], and every [add] is made at a clock reading later
    than [last] and than the reading of the previous [add], then after any
    sequence of operations no two transactions of the ledger share an
    id. *)
Theorem ids_distinct_while_clock_increases s (times : list Z) (last : Z)
    (ops : list (Operation num)) :
  map Transaction.id (transactions s) = map Z_toString times ->
  StronglySorted Z.lt times ->
  Forall (fun t => t <= last) times ->
  StronglySorted Z.lt (last :: clockReadings ops) ->
  NoDup (map Transaction.id (transactions (run ops s))).
Proof.
  revert s times last. unfold run.
  induction ops as [|op ops IH]; intros s times last Hids Hsorted Hlast Hclock.
  - cbn [fold_left]. rewrite Hids.
    apply NoDup_map_injective; [exact Z_toString_inj|].
    now apply StronglySorted_lt_NoDup.
  - cbn [fold_left].
    destruct op as [|email password|name email password| |now tx];
      try (apply (IH _ times last); try assumption;
           rewrite perform_transactions; now destruct (user s)).
    cbn [clockReadings] in Hclock.
    inversion Hclock as [|? ? Hrest Hall]; subst.
    inversion Hall as [|? ? Hnow _]; subst.
    assert (Hlast' : Forall (fun t => t <= now) times)
      by (eapply Forall_impl; [|exact Hlast]; cbn; intros; lia).
    destruct (user s) as [u|] eqn:Hu.
    + apply (IH _ (times ++ [now]) now); try assumption.
      * rewrite perform_transactions, Hu, !map_app, Hids. reflexivity.
      * apply StronglySorted_lt_snoc; [assumption|].
        eapply Forall_impl; [|exact Hlast]. cbn. intros. lia.
      * apply Forall_app. split; [assumption|].
        repeat constructor. lia.
    + apply (IH _ times now); try assumption.
      rewrite perform_transactions, Hu. exact Hids.
Qed.

End IdFacts.

Lemma ids_distinct_while_clock_increases_witness :
  NoDup (map Transaction.id (transactions sameDateTwice)).
Proof.
  apply (ids_distinct_while_clock_increases testUserSession
           [1; 2; 3; 4; 5; 6] 6
           [AddTransaction 1705320000000 lunch;
            AddTransaction 1705320001000 coffee]).
  - reflexivity.
  - repeat (constructor; [|repeat constructor; lia]). constructor.
  - repeat constructor; lia.
  - cbn [clockReadings].
    repeat (constructor; [|repeat constructor; lia]). constructor.
Defined.

(** ** The summaries *)

Lemma NoDup_skipn {A : Type} (n : nat) (l : list A) :
  NoDup l -> NoDup (skipn n l).
Proof.
  intros H. rewrite <- (firstn_skipn n l) in H.
  now apply NoDup_app_remove_l in H.
Qed.

Lemma lastN_map {A B : Type} (f : A -> B) (n : nat) (l : list A) :
  lastN n (map f l) = map f (lastN n l).
Proof. unfold lastN. now rewrite skipn_map, length_map. Qed.

Lemma lastN_length {A : Type} (n : nat) (l : list A) :
  (List.length (lastN n l) <= n)%nat.
Proof. unfold lastN. rewrite length_skipn. lia. Qed.

Lemma lastN_all {A : Type} (n : nat) (l : list A) :
  (List.length l <= n)%nat -> lastN n l = l.
Proof.
  intros H. unfold lastN.
  replace (List.length l - n)%nat with 0%nat by lia. reflexivity.
Qed.

Section SummaryFacts.
Context {num : Type} {N : Number num} {host : Host}.
Implicit Type s : State num.
Implicit Type t : Transaction.t num.

Lemma getMonthlyData_buckets s (u : User.t) :
  user s = Some u ->
  let mine := filter (ownedBy (User.id u)) (transactions s) in
  getMonthlyData s
  = lastN 6 (map (monthEntry mine) (firstSeen (map monthName mine))).
Proof.
  intros Hu mine. unfold getMonthlyData. rewrite Hu. fold mine.
  change (fold_left monthlyStep mine [])
    with (fold_left (groupStep monthName monthlyUpdate) mine []).
  rewrite (groupStep_fold monthName monthlyUpdate monthVal
             monthVal_new monthVal_old monthVal_other).
  rewrite Object_entries_tabulate.
  2:{ apply Forall_forall. intros k Hk.
      apply (dedupe_In _ String_eqb_spec), in_map_iff in Hk.
      destruct Hk as (t & <- & _). apply monthName_plain. }
  rewrite Array_slice_from_last6. unfold tabulate. now rewrite map_map.
Qed.

Lemma getDailyData_buckets s (u : User.t) (today : Z) :
  user s = Some u ->
  let mine := filter (ownedBy (User.id u)) (transactions s) in
  getDailyData s today
  = Some (map (dayEntry today mine) (lastSevenDays today)).
Proof.
  intros Hu mine. unfold getDailyData. rewrite Hu. fold mine.
  rewrite dailyStep_fold.
  rewrite Object_entries_tabulate
    by (rewrite lastSevenDays_ending; apply daysEnding_plain, getDay_range).
  unfold tabulate. now rewrite map_map.
Qed.

Lemma add_mine s (u : User.t) (now : Z) (tx : NewTransaction.t num) :
  user s = Some u ->
  filter (ownedBy (User.id u)) (transactions (addTransaction s now tx))
  = filter (ownedBy (User.id u)) (transactions s) ++ [newTransaction u now tx].
Proof.
  intros Hu. rewrite (add_transactions s u now tx Hu), filter_app.
  f_equal. cbn [filter]. unfold ownedBy.
  cbn [newTransaction Transaction.userId]. now rewrite String.eqb_refl.
Qed.

(** X14.  [monthly()] never has more than six entries, and no two of them
    carry the same month label. *)
Theorem monthly_at_most_six_distinct s :
  (List.length (getMonthlyData s) <= 6)%nat
  /\ NoDup (map MonthEntry.month (getMonthlyData s)).
Proof.
  destruct (user s) as [u|] eqn:Hu.
  - rewrite (getMonthlyData_buckets s u Hu). split; [apply lastN_length|].
    rewrite <- lastN_map, map_map. cbn [monthEntry MonthEntry.month].
    rewrite map_id. apply NoDup_skipn, (dedupe_NoDup _ String_eqb_spec).
  - unfold getMonthlyData. rewrite Hu. split; [cbn; lia | constructor].
Qed.

Lemma dayVal_snoc (today : Z) (label : string)
    (l : list (Transaction.t num)) t :
  dayVal today label (l ++ [t])
  = if inLast7Days today t && String.eqb label (dayName t)
    then credit (dayVal today label l) t
    else dayVal today label l.
Proof.
  unfold dayVal. rewrite filter_app. cbn [filter].
  destruct (inLast7Days today t); cbn [andb]; [|now rewrite app_nil_r].
  rewrite filter_app. cbn [filter].
  change (onDay label t) with (String.eqb label (dayName t)).
  destruct (String.eqb label (dayName t)); [|now rewrite app_nil_r].
  apply totalsOf_snoc.
Qed.

(** X15.  An [add] changes [daily()] in one entry at most: when the date
    of the new transaction is valid and less than seven whole days before
    [today], the entry of its day of the week gains the amount, as income or
    as expense; otherwise nothing changes.  A transaction added without a
    date, on a machine that reads back the date it writes, is counted in the
    last entry, today's, of [daily()] taken at the same instant. *)
Theorem add_updates_one_day s (u : User.t) (now today : Z)
    (tx : NewTransaction.t num) :
  user s = Some u ->
  let new := newTransaction u now tx in
  exists entries,
    getDailyData s today = Some entries
    /\ getDailyData (addTransaction s now tx) today
       = Some (if inLast7Days today new
               then map (fun entry =>
                           if String.eqb (DayEntry.day entry) (dayName new)
                           then creditDay entry new else entry)
                        entries
               else entries)
    /\ (NewTransaction.date tx = None ->
        Date_parse (toISOString now) = Some now ->
        inLast7Days now new = true
        /\ dayName new = last (lastSevenDays now) "").
Proof.
  intros Hu new.
  set (mine := filter (ownedBy (User.id u)) (transactions s)).
  exists (map (dayEntry today mine) (lastSevenDays today)).
  split; [apply (getDailyData_buckets s u today Hu)|]. split.
  - assert (Hu' : user (addTransaction s now tx) = Some u)
      by (unfold addTransaction; now rewrite Hu).
    rewrite (getDailyData_buckets _ u today Hu'). cbv zeta.
    rewrite (add_mine s u now tx Hu). fold mine. fold new. f_equal.
    destruct (inLast7Days today new) eqn:Hin.
    + rewrite map_map. apply map_ext. intros label.
      unfold dayEntry. rewrite dayVal_snoc, Hin. cbn [andb DayEntry.day].
      destruct (String.eqb label (dayName new)); [|reflexivity].
      unfold credit, creditDay. now destruct (Transaction.type new).
    + apply map_ext. intros label. unfold dayEntry.
      now rewrite dayVal_snoc, Hin.
  - intros Hnone Hparse.
    assert (Htime : getTime new = Some now).
    { unfold getTime, new, newTransaction. cbn [Transaction.date].
      now rewrite Hnone. }
    unfold inLast7Days, dayName. rewrite Htime. split.
    + unfold daysDiff. rewrite Z.sub_diag. reflexivity.
    + unfold lastSevenDays. cbn [map last]. unfold daysEarlier.
      f_equal. lia.
Qed.

(** X16.  An [add] changes [byCategory()] in one entry at most: when the
    session already has a transaction of the same category and type, the
    entry of that pair gains the amount and every entry keeps its place;
    otherwise a new entry with the amount added to [0] follows the previous
    ones. *)
Theorem add_updates_one_category s (u : User.t) (now : Z)
    (tx : NewTransaction.t num) :
  user s = Some u ->
  let mine := filter (ownedBy (User.id u)) (transactions s) in
  let new := newTransaction u now tx in
  getCategoryData (addTransaction s now tx)
  = if existsb (Group_eqb (groupOf new)) (groupsOf mine)
    then map (fun g =>
                CategoryEntry.mk (beforeFirst "-" (fst g))
                  (if inGroup g new
                   then num_add (bucketTotal mine g) (Transaction.amount new)
                   else bucketTotal mine g)
                  (snd g))
             (groupsOf mine)
    else getCategoryData s
         ++ [CategoryEntry.mk (beforeFirst "-" (Transaction.category new))
               (num_add num_zero (Transaction.amount new))
               (Transaction.type new)].
Proof.
  intros Hu mine new.
  assert (Hu' : user (addTransaction s now tx) = Some u)
    by (unfold addTransaction; now rewrite Hu).
  rewrite (getCategoryData_groups _ u Hu'), (getCategoryData_groups s u Hu).
  cbv zeta. rewrite (add_mine s u now tx Hu). fold mine. fold new.
  unfold groupsOf at 1. rewrite map_app. cbn [map]. rewrite dedupe_snoc.
  fold (groupsOf mine).
  destruct (existsb (Group_eqb (groupOf new)) (groupsOf mine)) eqn:E.
  - apply map_ext. intros g. now rewrite bucketTotal_snoc.
  - rewrite map_app. cbn [map]. f_equal.
    + apply map_ext_in. intros g Hg.
      rewrite bucketTotal_snoc, inGroup_other; [reflexivity|].
      intros ->. apply (existsb_eqb_not_In _ Group_eqb_spec) in E.
      contradiction.
    + rewrite bucketTotal_snoc, inGroup_own.
      unfold bucketTotal at 1. rewrite filter_inGroup_nil; [reflexivity|].
      apply (existsb_eqb_not_In _ Group_eqb_spec) in E.
      intros Hin. apply E. now apply (dedupe_In _ Group_eqb_spec).
Qed.

(** X17.  [byCategory()] has as many entries as the session's transactions
    have distinct pairs of category and type; when none of the categories
    contains a hyphen, the entries report these pairs as they are, so no two
    entries have the same category and type. *)
Theorem byCategory_entries_distinct s (u : User.t) :
  user s = Some u ->
  let mine := filter (ownedBy (User.id u)) (transactions s) in
  List.length (getCategoryData s) = List.length (groupsOf mine)
  /\ (Forall (fun t => occursIn "-" (Transaction.category t) = false) mine ->
      map (fun e => (CategoryEntry.category e, CategoryEntry.type e))
        (getCategoryData s)
      = groupsOf mine
      /\ NoDup (map (fun e => (CategoryEntry.category e, CategoryEntry.type e))
                  (getCategoryData s))).
Proof.
  intros Hu mine. rewrite (getCategoryData_groups s u Hu). fold mine.
  split; [apply length_map|].
  intros Hfree.
  assert (E : map (fun e => (CategoryEntry.category e, CategoryEntry.type e))
                (map (fun g => CategoryEntry.mk (beforeFirst "-" (fst g))
                                 (bucketTotal mine g) (snd g))
                     (groupsOf mine))
              = groupsOf mine).
  { rewrite map_map. cbn [CategoryEntry.category CategoryEntry.type].
    rewrite <- (map_id (groupsOf mine)) at 2.
    apply map_ext_in. intros [c ty] Hg. cbn [fst snd].
    apply (dedupe_In _ Group_eqb_spec), in_map_iff in Hg.
    destruct Hg as (t & Ht & Hin).
    rewrite Forall_forall in Hfree. specialize (Hfree t Hin).
    injection Ht as <- <-. now rewrite beforeFirst_absent. }
  split; [exact E|]. rewrite E. apply (dedupe_NoDup _ Group_eqb_spec).
Qed.

End SummaryFacts.

Lemma add_updates_one_day_witness :
  inLast7Days 1700000000000 (newTransaction testUser 1700000000000 fuel) = true
  /\ dayName (newTransaction testUser 1700000000000 fuel) = "Tue".
Proof.
  destruct (add_updates_one_day testUserSession testUser 1700000000000
              1700000000000 fuel eq_refl) as (entries & _ & _ & Hnow).
  exact (Hnow eq_refl ltac:(vm_compute; reflexivity)).
Defined.

Lemma add_updates_one_category_witness :
  getCategoryData fuelAdded
  = [ CategoryEntry.mk "Freelance" 25000 income;
      CategoryEntry.mk "Transport" 5000 expense;
      CategoryEntry.mk "Entertainment" 1800 expense ].
Proof.
  unfold fuelAdded.
  rewrite (add_updates_one_category testUserSession testUser 1700000000000
             fuel eq_refl).
  vm_compute. reflexivity.
Defined.

Lemma byCategory_entries_distinct_witness :
  NoDup (map (fun e => (CategoryEntry.category e, CategoryEntry.type e))
           (getCategoryData testUserSession)).
Proof.
  apply (byCategory_entries_distinct testUserSession testUser eq_refl).
  let l := eval vm_compute in
    (filter (ownedBy (User.id testUser)) (transactions testUserSession)) in
  change (filter (ownedBy (User.id testUser)) (transactions testUserSession))
    with l.
  repeat (apply Forall_cons; [reflexivity|]). apply Forall_nil.
Defined.

(** ** What the summaries add up to, with exact addition *)

Section SummarySums.
Context {num : Type} {N : Number num} {host : Host}.
Implicit Type s : State num.
Implicit Type t : Transaction.t num.

Hypothesis add_assoc :
  forall a b c : num, num_add a (num_add b c) = num_add (num_add a b) c.
Hypothesis add_comm : forall a b : num, num_add a b = num_add b a.
Hypothesis add_0_l : forall a : num, num_add num_zero a = a.

Lemma total_zeros {K : Type} (ks : list K) :
  total (map (fun _ => @num_zero num N) ks) = num_zero.
Proof.
  induction ks as [|k ks IH]; [reflexivity|].
  cbn [map]. rewrite (total_cons add_assoc add_comm add_0_l), IH.
  apply add_0_l.
Qed.

(** Buckets with distinct labels that cover the labels of a list share out
    its sum. *)
Lemma total_partition (key : Transaction.t num -> string) (ks : list string)
    (l : list (Transaction.t num)) :
  NoDup ks ->
  (forall t, In t l -> In (key t) ks) ->
  total (map (fun k =>
                total (amounts (filter (fun t => String.eqb k (key t)) l)))
             ks)
  = total (amounts l).
Proof.
  intros Hnd. induction l as [|t l IH] using rev_ind; intros Hcover.
  - cbn [filter amounts map]. apply total_zeros.
  - unfold amounts at 2. rewrite map_app. cbn [map]. rewrite total_snoc.
    fold (amounts l).
    rewrite <- IH by (intros x Hx; apply Hcover, in_or_app; now left).
    apply (total_map_bump add_assoc add_comm add_0_l) with (k0 := key t).
    + exact Hnd.
    + apply Hcover, in_or_app. right. now left.
    + intros k _ Hk. rewrite filter_app. cbn [filter].
      apply String.eqb_neq in Hk. rewrite Hk. now rewrite app_nil_r.
    + rewrite filter_app. cbn [filter]. rewrite String.eqb_refl.
      unfold amounts. rewrite map_app. cbn [map]. apply total_snoc.
Qed.

Lemma totalsOf_bucket (label : string) (ty : TransactionType)
    (key : Transaction.t num -> string) (l : list (Transaction.t num)) :
  total (amounts (filter (hasType ty)
                    (filter (fun t => String.eqb label (key t)) l)))
  = total (amounts (filter (fun t => String.eqb label (key t))
                      (filter (hasType ty) l))).
Proof. now rewrite filter_comm. Qed.



End SummarySums.


